(** * Triple collocation: the covariance-notation estimator [tc_covar]

    A shallow embedding of [TC/TC_function.ipynb] (function [tc_covar]) and of
    the NumPy routines it calls ([ndarray.ndim], [ndarray.shape], [np.cov]
    with [rowvar=False], 2-index item access and [np.array]).

    Numbers.  The program computes on [float64].  The code below is written
    once, over an arithmetic carrier [F] (class [Arith]), and read at two
    carriers:
    - [binary64]: IEEE-754 double precision as specified by the standard
      library's [SpecFloat] (round to nearest even, signed zeros, infinities,
      one NaN).  Claims about non-finite results are settled here.
    - [Qc]: exact rational arithmetic.  Claims that are identities of real
      algebra (they hold on [float64] only up to rounding) are settled here,
      for samples of two rows or more (so that [N] and [N - 1] divide) and,
      where the value of a quotient matters, for non-zero denominators.

    Sums.  [fsum] and [dot] round each product and add left to right from
    zero.  The order in which NumPy and BLAS accumulate is not fixed by the
    sources (it depends on the memory layout of the array and on fused
    multiply-add), so the floats [np.cov] returns can differ from these in
    the last bits.  No statement below rests on that order: on the exact
    carrier every order gives the same number; on [binary64] a theorem about
    values takes the covariance matrix as [np.cov] returned it, or holds for
    every order (symmetry, NaN and infinity), and the computed instances use
    small integers, on which every order gives the same floats.

    NumPy.  [np.cov] is modelled from NumPy's source, for the releases before
    2.2 and from 2.2 on, which differ on a one-row input ([numpy_release]).
    NumPy's default error state is assumed: a division by zero or an invalid
    operation gives an infinity or NaN (with a [RuntimeWarning], which is not
    modelled), not an exception.

    Extended collocation.  [ec_covar] and [ec_covar_multi] are defined in
    [TC/EC_function.ipynb], which is not among the sources; they are modelled
    from the specification.

    The example notebooks.  The deterministic code of the two example
    notebooks is embedded as well: [generate_sample] with its random draws
    passed in, the boxcar smoothing by [np.convolve], the slices and the
    [np.stack] and [transpose] calls that lay out the simulations, and
    [cw_stcs], which is read over the real numbers (no rounding, no
    overflow). *)

From Stdlib Require Import String.
From Stdlib Require Import List Bool Arith ZArith Lia.
From Stdlib Require Import QArith Qcanon Field.
From Stdlib Require Import DecimalString.
From Stdlib Require Import SpecFloat.
From Stdlib Require Import Permutation.
From Stdlib Require Import Reals Lra.
Import ListNotations.

Close Scope Qc_scope.
Close Scope Q_scope.
Open Scope nat_scope.

(** ** Arithmetic carrier *)

(** The scalar operations the program uses: [+], [-], [*], [/] and the
    conversion of a Python integer (a count) to a float. *)
Class Arith (F : Type) : Type := {
  f0 : F;
  fadd : F -> F -> F;
  fsub : F -> F -> F;
  fmul : F -> F -> F;
  fdiv : F -> F -> F;
  of_nat : nat -> F
}.

Declare Scope arith_scope.
Delimit Scope arith_scope with ar.
Infix "[+]" := fadd (at level 50, left associativity) : arith_scope.
Infix "[-]" := fsub (at level 50, left associativity) : arith_scope.
Infix "[*]" := fmul (at level 40, left associativity) : arith_scope.
Infix "[/]" := fdiv (at level 40, left associativity) : arith_scope.

(** ** Python exceptions and results *)

Inductive exn : Type :=
| ValueError (msg : string)
| IndexError (msg : string).

Inductive result (A : Type) : Type :=
| Ok (a : A)
| Raise (e : exn).

Arguments Ok {A} a.
Arguments Raise {A} e.

Definition bind {A B : Type} (r : result A) (k : A -> result B) : result B :=
  match r with
  | Ok a => k a
  | Raise e => Raise e
  end.

Notation "x <- r ;; k" := (bind r (fun x => k))
  (at level 61, r at next level, right associativity).

(** [str(n)] for a non-negative Python integer. *)
Definition str (n : nat) : string := NilEmpty.string_of_uint (Nat.to_uint n).

(** The [IndexError] message of a 2-index access to a 0-d array. *)
Definition msg_0d : string :=
  "too many indices for array: array is 0-dimensional, but 2 were indexed".

(** ** NumPy arrays *)

(** An [ndarray]: its shape and its buffer in row-major (C) order. *)
Record ndarray (F : Type) : Type := mk_ndarray {
  shape : list nat;
  data : list F
}.

Arguments mk_ndarray {F} shape data.
Arguments shape {F} _.
Arguments data {F} _.

Definition ndim {F} (X : ndarray F) : nat := length (shape X).

(** [X.shape[k]]; the program reads it only for [k < X.ndim]. *)
Definition shape_at {F} (X : ndarray F) (k : nat) : nat := nth k (shape X) 0.

(** A buffer of the right size for its shape. *)
Definition well_formed {F} (X : ndarray F) : Prop :=
  length (data X) = fold_right Nat.mul 1 (shape X).

(** The releases of NumPy differ in one place of [np.cov] (see
    [cov_transposes]): those before 2.2 (the 1.x line, 2.0 and 2.1) and those
    from 2.2 on. *)
Inductive numpy_release : Type := numpy_pre_2_2 | numpy_2_2.

Section Numpy.

Context {F : Type} {A : Arith F}.
Local Open Scope arith_scope.

(** A sum, taken left to right from zero (one of the orders a NumPy
    reduction can take). *)
Definition fsum (l : list F) : F := fold_left fadd l f0.

(** Row [r], column [c] of a 2-D array whose rows have [ncols] items. *)
Definition item2 (X : ndarray F) (r c : nat) : F :=
  nth (r * shape_at X 1 + c) (data X) f0.

(** [np.array(m, ndmin=2)]: ones are prepended to the shape. *)
Definition shape2 (m : ndarray F) : nat * nat :=
  match shape m with
  | [] => (1, 1)
  | [n] => (1, n)
  | r :: c :: _ => (r, c)
  end.

(** [c.squeeze()] for a 2-D array: axes of length one are dropped. *)
Definition squeeze (c : ndarray F) : ndarray F :=
  mk_ndarray (filter (fun d => negb (d =? 1)) (shape c)) (data c).

(** Whether [np.cov(m, rowvar=False)] transposes its copy of [m].
    NumPy before 2.2 (the 1.x line, 2.0 and 2.1):
    [if not rowvar and X.shape[0] != 1: X = X.T];
    NumPy 2.2 and later: [if not rowvar and m.ndim != 1: X = X.T]. *)
Definition cov_transposes (ver : numpy_release) (m : ndarray F) : bool :=
  match ver with
  | numpy_pre_2_2 => negb (fst (shape2 m) =? 1)
  | numpy_2_2 => negb (ndim m =? 1)
  end.

(** The observations of variable [v]: a column of the input when [np.cov]
    transposed it, a row otherwise. *)
Definition cov_obs (transposed : bool) (ncols nobs : nat) (m : ndarray F)
    (v : nat) : list F :=
  map (fun o => if transposed
                then nth (o * ncols + v) (data m) f0
                else nth (v * ncols + o) (data m) f0)
      (seq 0 nobs).

(** [avg = average(X, axis=1)]: the mean of one variable. *)
Definition mean (xs : list F) : F := fsum xs [/] of_nat (length xs).

(** [X -= avg[:, None]] for one variable. *)
Definition center (xs : list F) : list F :=
  let avg := mean xs in map (fun x => x [-] avg) xs.

(** One entry of [dot(X, X_T.conj())]: each product rounded, the products
    added left to right (BLAS may fuse and reorder; see the header). *)
Definition dot (xs ys : list F) : F :=
  fsum (map (fun p => fst p [*] snd p) (combine xs ys)).

(** [np.cov(m, rowvar=False)] with the defaults [bias=False], [ddof=None],
    no weights: [fact = nobs - 1], replaced by [0.0] when it is not positive;
    the result is [dot(X, X.T) * (1 / fact)], squeezed. *)
Definition np_cov (ver : numpy_release) (m : ndarray F) : result (ndarray F) :=
  if 2 <? ndim m then Raise (ValueError "m has more than 2 dimensions") else
  let '(rows, cols) := shape2 m in
  let transposed := cov_transposes ver m in
  let nvar := if transposed then cols else rows in
  let nobs := if transposed then rows else cols in
  if nvar =? 0 then Ok (mk_ndarray [0; 0] []) else
  let X := fun v => center (cov_obs transposed cols nobs m v) in
  let fact := of_nat (nobs - 1) in
  let scale := of_nat 1 [/] fact in
  let c := flat_map (fun v => map (fun w => dot (X v) (X w) [*] scale)
                                  (seq 0 nvar)) (seq 0 nvar) in
  Ok (squeeze (mk_ndarray [nvar; nvar] c)).

(** What [np_cov] computes when it transposes: column [v] of the input is
    variable [v], and entry [(v, w)] of the result is [cov_entry X v w]. *)
Definition column (X : ndarray F) (v : nat) : list F :=
  cov_obs true (shape_at X 1) (shape_at X 0) X v.

Definition cov_entry (X : ndarray F) (v w : nat) : F :=
  dot (center (column X v)) (center (column X w))
  [*] (of_nat 1 [/] of_nat (shape_at X 0 - 1)).

(** The covariance matrix [np_cov] returns for a 2-D input it transposes. *)
Definition cov_matrix (X : ndarray F) : ndarray F :=
  let M := shape_at X 1 in
  mk_ndarray [M; M] (flat_map (fun v => map (cov_entry X v) (seq 0 M)) (seq 0 M)).

(** [a[i, j]] for constant non-negative [i], [j] on an array of at most two
    axes ([np.cov] returns no other; on a deeper array the same expression
    would select a sub-array, which is not modelled). *)
Definition getitem2 (a : ndarray F) (i j : nat) : result F :=
  match shape a with
  | [r; c] =>
      if negb (i <? r) then
        Raise (IndexError ("index " ++ str i ++ " is out of bounds for axis 0 with size "
                           ++ str r)%string)
      else if negb (j <? c) then
        Raise (IndexError ("index " ++ str j ++ " is out of bounds for axis 1 with size "
                           ++ str c)%string)
      else Ok (nth (i * c + j) (data a) f0)
  | _ =>
      Raise (IndexError ("too many indices for array: array is " ++ str (ndim a)
                         ++ "-dimensional, but 2 were indexed")%string)
  end.

(** [np.array([...])] of scalars. *)
Definition np_array (l : list F) : ndarray F := mk_ndarray [length l] l.

(** [covar[p] - covar[q] * covar[r] / covar[s]], the items read left to right. *)
Definition tc_entry (covar : ndarray F) (p q r s : nat * nat) : result F :=
  a <- getitem2 covar (fst p) (snd p) ;;
  b <- getitem2 covar (fst q) (snd q) ;;
  c <- getitem2 covar (fst r) (snd r) ;;
  d <- getitem2 covar (fst s) (snd s) ;;
  Ok (a [-] b [*] c [/] d).

(** [tc_covar(X)] of [TC/TC_function.ipynb]. *)
Definition tc_covar (ver : numpy_release) (X : ndarray F) : result (ndarray F) :=
  if negb (ndim X =? 2) then
    Raise (ValueError ("X must be a 2D array input. Current number of dimensions: "
                       ++ str (ndim X))%string)
  else if negb (shape_at X 1 =? 3) then
    Raise (ValueError ("X must have a trailing dimension of length 3."
                       ++ "Current trailing dimension length: "
                       ++ str (shape_at X 1))%string)
  else
    covar <- np_cov ver X ;;
    e0 <- tc_entry covar (0, 0) (0, 1) (0, 2) (1, 2) ;;
    e1 <- tc_entry covar (1, 1) (0, 1) (1, 2) (0, 2) ;;
    e2 <- tc_entry covar (2, 2) (0, 2) (1, 2) (0, 1) ;;
    Ok (np_array [e0; e1; e2]).

(** The closed-form TC estimate of the notebook,
    [sigma_ii - (sigma_ij * sigma_ik) / sigma_jk], for system [i] and the
    two other systems [j], [k]. *)
Definition tc_closed_form (sigma : nat -> nat -> F) (i j k : nat) : F :=
  sigma i i [-] sigma i j [*] sigma i k [/] sigma j k.

End Numpy.

(** The off-diagonal entry that is the denominator of output entry [k]. *)
Definition denominator_of (k : nat) : nat * nat :=
  match k with
  | 0 => (1, 2)
  | 1 => (0, 2)
  | _ => (0, 1)
  end.

(** ** The two carriers *)

(** IEEE-754 binary64. *)
Abbreviation binary64 := spec_float.

Definition b64_of_Z (z : Z) : binary64 := binary_normalize 53 1024 z 0 false.

#[export] Instance Arith_binary64 : Arith binary64 := {
  f0 := S754_zero false;
  fadd := SFadd 53 1024;
  fsub := SFsub 53 1024;
  fmul := SFmul 53 1024;
  fdiv := SFdiv 53 1024;
  of_nat := fun n => b64_of_Z (Z.of_nat n)
}.

(** Exact rationals. *)
#[export] Instance Arith_Qc : Arith Qc := {
  f0 := 0%Qc;
  fadd := Qcplus;
  fsub := Qcminus;
  fmul := Qcmult;
  fdiv := Qcdiv;
  of_nat := fun n => Q2Qc (inject_Z (Z.of_nat n))
}.

(** A 2-D array from its rows. *)
Definition of_rows {F} (rows : list (list F)) : ndarray F :=
  mk_ndarray [length rows; length (hd [] rows)] (concat rows).

Definition zrows (rows : list (list Z)) : ndarray Qc :=
  of_rows (map (map (fun z => Q2Qc (inject_Z z))) rows).

Definition frows (rows : list (list Z)) : ndarray binary64 :=
  of_rows (map (map b64_of_Z) rows).

(** ** Broadcasting and the affine error model *)

Section Samples.

Context {F : Type} {A : Arith F}.
Local Open Scope arith_scope.

(** [X + a] for a 2-D array [X] and a 1-D array [a] with one item per column
    (NumPy broadcasting along the rows). *)
Definition add_rowvec (X : ndarray F) (a : list F) : ndarray F :=
  mk_ndarray (shape X)
    (map (fun p => snd p [+] nth (fst p mod shape_at X 1) a f0)
         (combine (seq 0 (length (data X))) (data X))).

(** The last line of [generate_sample],
    [x = alpha + beta * t.reshape((nsamples, 1)) + errors],
    with the two random draws ([t], one item per row, and [errors]) passed
    in; [alpha] and [beta] hold one item per column. *)
Definition generate_sample (alpha beta t : list F) (errors : ndarray F) : ndarray F :=
  let N := shape_at errors 0 in
  let M := shape_at errors 1 in
  mk_ndarray [N; M]
    (flat_map (fun n => map (fun i => nth i alpha f0 [+] nth i beta f0 [*] nth n t f0
                                      [+] item2 errors n i)
                            (seq 0 M))
              (seq 0 N)).

End Samples.

(** ** Extended collocation *)

(** [TC/EC_function.ipynb], which defines [ec_covar] and [ec_covar_multi], is
    not among the sources; only calls of the two functions are.  Both are
    modelled from the specification. *)

(** A loop that stops at the first exception. *)
Fixpoint mapM {B C : Type} (f : B -> result C) (l : list B) : result (list C) :=
  match l with
  | [] => Ok []
  | b :: l' => c <- f b ;; cs <- mapM f l' ;; Ok (c :: cs)
  end.

(** Modelled from the spec: the number of distinct group labels of a
    correlation grouping (section 3 asks for at least 3). *)
Definition distinct_groups (corr_sets : list nat) : nat :=
  length (nodup Nat.eq_dec corr_sets).

(** Modelled from the spec: the helpers [(k, l)] section 4.3 allows for the
    ordered pair [(i, j)]: [k] is in another group than [i], [l] in another
    group than [j], and [k], [l] are in different groups. *)
Definition valid_helpers (corr_sets : list nat) (i j : nat) (kl : nat * nat) : bool :=
  let g := fun s => nth s corr_sets 0 in
  let '(k, l) := kl in
  (k <? length corr_sets) && (l <? length corr_sets)
  && negb (g k =? g i) && negb (g l =? g j) && negb (g k =? g l).

(** Modelled from the spec: one deterministic tie-break for the helper pair,
    the lowest valid pair in index order (the tie-break section 9 suggests);
    it falls back to [(0, 0)] when no pair is valid. *)
Definition pick_lowest (corr_sets : list nat) (i j : nat) : nat * nat :=
  let M := length corr_sets in
  match find (valid_helpers corr_sets i j) (list_prod (seq 0 M) (seq 0 M)) with
  | Some kl => kl
  | None => (0, 0)
  end.

Section EC.

Context {F : Type} {A : Arith F}.
Local Open Scope arith_scope.

(** The choice of the helper pair, which the specification leaves to the
    implementation. *)
Variable pick : list nat -> nat -> nat -> nat * nat.

(** Modelled from the spec: the EC formula
    [sigma_ij - (sigma_ik * sigma_jl) / sigma_kl] of section 4.3. *)
Definition ec_entry (covar : ndarray F) (i j : nat) (kl : nat * nat) : result F :=
  a <- getitem2 covar i j ;;
  b <- getitem2 covar i (fst kl) ;;
  c <- getitem2 covar j (snd kl) ;;
  d <- getitem2 covar (fst kl) (snd kl) ;;
  Ok (a [-] b [*] c [/] d).

(** Modelled from the spec: the EC estimate of entry [(i, j)] with the
    helpers [pick] selects, over the entries [np_cov] computes. *)
Definition ec_value (X : ndarray F) (corr_sets : list nat) (p : nat * nat) : F :=
  let '(k, l) := pick corr_sets (fst p) (snd p) in
  cov_entry X (fst p) (snd p)
  [-] cov_entry X (fst p) k [*] cov_entry X (snd p) l [/] cov_entry X k l.

(** Modelled from the spec: [ec_covar] ([ec_error_covariance] of section 6),
    absent from the sources.  The preconditions of section 6 are checked
    first (rank 2, at least 3 systems, one group label per system, at least
    3 distinct labels); the covariance builder is [np_cov]; every ordered
    pair [(i, j)] gets the EC formula with the helpers [pick] selects. *)
Definition ec_covar (ver : numpy_release) (X : ndarray F) (corr_sets : list nat)
    : result (ndarray F) :=
  if negb (ndim X =? 2) then
    Raise (ValueError "X must be a 2D array input")
  else
    let M := shape_at X 1 in
    if M <? 3 then
      Raise (ValueError "X must have a trailing dimension of length 3 or more")
    else if negb (length corr_sets =? M) then
      Raise (ValueError "corr_sets must have one label per system")
    else if distinct_groups corr_sets <? 3 then
      Raise (ValueError "corr_sets must span 3 or more groups")
    else
      covar <- np_cov ver X ;;
      entries <- mapM (fun p => ec_entry covar (fst p) (snd p)
                                         (pick corr_sets (fst p) (snd p)))
                      (list_prod (seq 0 M) (seq 0 M)) ;;
      Ok (mk_ndarray [M; M] entries).

(** The number of positions along the extra axes. *)
Definition extent (extra : list nat) : nat := fold_right Nat.mul 1 extra.

(** [X[:, :, e]]: the [(N, M)] slice at position [e] of the (flattened)
    extra axes of an array of shape [(N, M, ...)]. *)
Definition slice (X : ndarray F) (e : nat) : ndarray F :=
  match shape X with
  | N :: M :: extra =>
      mk_ndarray [N; M]
        (map (fun p => nth (p * extent extra + e) (data X) f0) (seq 0 (N * M)))
  | _ => X
  end.

(** Modelled from the spec: [ec_covar_multi] ([ec_error_covariance_batched]),
    absent from the sources.  The preconditions of section 6 are enforced at
    the boundary, before any slice is taken (rank 2 or more, at least 3
    systems, one group label per system, at least 3 distinct labels), so
    also when an extra axis is empty; then the EC solver is applied to each
    slice along the extra axes and the results are laid out with shape
    [(M, M, ...)]. *)
Definition ec_covar_multi (ver : numpy_release) (X : ndarray F) (corr_sets : list nat)
    : result (ndarray F) :=
  match shape X with
  | N :: M :: extra =>
      if M <? 3 then
        Raise (ValueError "X must have a system axis of length 3 or more")
      else if negb (length corr_sets =? M) then
        Raise (ValueError "corr_sets must have one label per system")
      else if distinct_groups corr_sets <? 3 then
        Raise (ValueError "corr_sets must span 3 or more groups")
      else
        rs <- mapM (fun e => ec_covar ver (slice X e) corr_sets)
                   (seq 0 (extent extra)) ;;
        Ok (mk_ndarray (M :: M :: extra)
              (flat_map (fun p => map (fun r => nth p (data r) f0) rs) (seq 0 (M * M))))
  | _ => Raise (ValueError "X must have 2 or more dimensions")
  end.

End EC.

(** ** The statistics the specification names *)

Module Exact.

Local Open Scope Qc_scope.

(** [sum_(n < N) f n]. *)
Fixpoint bigsum (N : nat) (f : nat -> Qc) : Qc :=
  match N with
  | O => 0
  | S k => bigsum k f + f k
  end.

Definition count (n : nat) : Qc := Q2Qc (inject_Z (Z.of_nat n)).

(** The mean and the unbiased sample covariance of two series of [N]
    observations: [sum_n (x n - mean x) * (y n - mean y) / (N - 1)]. *)
Definition seq_mean (N : nat) (x : nat -> Qc) : Qc := bigsum N x / count N.

Definition seq_cov (N : nat) (x y : nat -> Qc) : Qc :=
  bigsum N (fun n => (x n - seq_mean N x) * (y n - seq_mean N y)) / count (N - 1).

(** The mean of column [i] of an [N x M] array. *)
Definition col_mean (X : ndarray Qc) (i : nat) : Qc :=
  seq_mean (shape_at X 0) (fun n => item2 X n i).

(** The unbiased sample covariance of columns [i] and [j]:
    [sum_n (X[n,i] - mean_i) * (X[n,j] - mean_j) / (N - 1)]. *)
Definition sample_cov (X : ndarray Qc) (i j : nat) : Qc :=
  seq_cov (shape_at X 0) (fun n => item2 X n i) (fun n => item2 X n j).

(** The unbiased sample variance of column [i]. *)
Definition sample_var (X : ndarray Qc) (i : nat) : Qc :=
  bigsum (shape_at X 0) (fun n => (item2 X n i - col_mean X i) ^ 2)
  / count (shape_at X 0 - 1).

(** The algebraic estimate for system [k]. *)
Definition tc_estimate (X : ndarray Qc) (k : nat) : Qc :=
  match k with
  | 0 => tc_closed_form (sample_cov X) 0 1 2
  | 1 => tc_closed_form (sample_cov X) 1 2 0
  | _ => tc_closed_form (sample_cov X) 2 0 1
  end%nat.

End Exact.

(** ** IEEE-754 classes *)

Definition is_finite (x : binary64) : bool :=
  match x with
  | S754_zero _ | S754_finite _ _ _ => true
  | S754_infinity _ | S754_nan => false
  end.

Definition is_zero (x : binary64) : bool :=
  match x with
  | S754_zero _ => true
  | _ => false
  end.

(** A finite negative number (not a zero, not minus infinity). *)
Definition is_negative (x : binary64) : bool :=
  match x with
  | S754_finite true _ _ => true
  | _ => false
  end.

(** The rational number a finite float stands for. *)
Definition b64_to_Q (x : binary64) : option Q :=
  match x with
  | S754_zero _ => Some 0%Q
  | S754_finite s m e =>
      Some (inject_Z (if s then Z.neg m else Z.pos m) * Qpower (2 # 1) e)%Q
  | S754_infinity _ | S754_nan => None
  end.

(** ** Smoothing and the sample generator *)

Section Generator.

Context {F : Type} {A : Arith F}.
Local Open Scope arith_scope.

(** [np.ones(n)]. *)
Definition np_ones (n : nat) : list F := repeat (of_nat 1) n.

(** [np.ones(5) / 5], the boxcar window of the notebook. *)
Definition boxcar5 : list F := map (fun x => x [/] of_nat 5) (np_ones 5).

(** [multiarray.correlate(a, w, mode='same')] for [len(a) >= len(w) >= 1]
    (NumPy's [_pyarray_correlate]): [n_left = len(w) / 2] items for which the
    window hangs over the left end, the items for which it fits, and
    [n_right = len(w) - n_left - 1] items for which it hangs over the right
    end; each item is the dot product of the overlapping parts. *)
Definition correlate_same (a w : list F) : list F :=
  let n1 := length a in
  let n2 := length w in
  let n_left := n2 / 2 in
  let n_right := n2 - n_left - 1 in
  map (fun i => dot (firstn (n2 - n_left + i) a) (skipn (n_left - i) w)) (seq 0 n_left)
  ++ map (fun i => dot (firstn n2 (skipn i a)) w) (seq 0 (n1 - n2 + 1))
  ++ map (fun i => dot (skipn (n1 - n2 + 1 + i) a) (firstn (n2 - 1 - i) w))
         (seq 0 n_right).

(** [np.convolve(a, v, 'same')]: the longer argument comes first, an empty
    one is refused, and the result is the correlation with the reversed
    second argument. *)
Definition np_convolve_same (a v : list F) : result (list F) :=
  let '(a, v) := if length a <? length v then (v, a) else (a, v) in
  if length a =? 0 then Raise (ValueError "a cannot be empty")
  else if length v =? 0 then Raise (ValueError "v cannot be empty")
  else Ok (correlate_same a (rev v)).

(** The length two axes broadcast to, when they do. *)
Definition broadcast_dim (a b : nat) : option nat :=
  if a =? b then Some a
  else if a =? 1 then Some b
  else if b =? 1 then Some a
  else None.

(** Item [i] of a 1-D array broadcast along an axis. *)
Definition bitem (l : list F) (i : nat) : F :=
  nth (if length l =? 1 then 0 else i) l f0.

Definition msg_broadcast (s1 s2 : string) : string :=
  ("operands could not be broadcast together with shapes " ++ s1 ++ " " ++ s2 ++ " ")%string.

(** [generate_sample(nsamples, sigma, alpha, beta)] with its two random
    draws passed in: [t_original], the [nsamples] draws of
    [np.random.uniform], and [errors], the [nsamples x len(sigma)] draws of
    [np.random.multivariate_normal] ([sigma] is used for these only).  The
    signal is smoothed by the boxcar window, reshaped to a column and
    combined with [alpha], [beta] and [errors] by broadcasting; where
    [alpha] and [beta] hold one item per column of [errors], the result is
    [generate_sample alpha beta t errors]. *)
Definition generate_sample_drawn (nsamples : nat) (alpha beta t_original : list F)
    (errors : ndarray F) : result (ndarray F) :=
  t <- np_convolve_same t_original boxcar5 ;;
  if negb (length t =? nsamples) then
    Raise (ValueError ("cannot reshape array of size " ++ str (length t)
                       ++ " into shape (" ++ str nsamples ++ ",1)")%string)
  else
    let K := shape_at errors 1 in
    match broadcast_dim (length alpha) (length beta) with
    | None =>
        Raise (ValueError (msg_broadcast
                 ("(" ++ str (length alpha) ++ ",)")
                 ("(" ++ str nsamples ++ "," ++ str (length beta) ++ ")")))
    | Some C =>
        match broadcast_dim C K with
        | None =>
            Raise (ValueError (msg_broadcast
                     ("(" ++ str nsamples ++ "," ++ str C ++ ")")
                     ("(" ++ str nsamples ++ "," ++ str K ++ ")")))
        | Some M =>
            Ok (mk_ndarray [nsamples; M]
                  (flat_map
                     (fun n => map (fun i => bitem alpha i [+] bitem beta i [*] nth n t f0
                                             [+] item2 errors n (if K =? 1 then 0 else i))
                                   (seq 0 M))
                     (seq 0 nsamples)))
        end
    end.

End Generator.

(** ** Slices, stacking and transposition *)

(** The indices [seq[start:stop:step]] selects from a sequence of length
    [L], for non-negative bounds and a positive step: both bounds are
    clamped to [L], and the indices are those of [range(start, stop, step)]. *)
Definition slice_indices (L start stop step : nat) : list nat :=
  let start := Nat.min start L in
  let stop := Nat.min stop L in
  let len := if start <? stop then (stop - start - 1) / step + 1 else 0 in
  map (fun j => start + j * step) (seq 0 len).

(** The number of items of an array of shape [s]. *)
Definition size (s : list nat) : nat := fold_right Nat.mul 1 s.

(** Row-major strides, in items. *)
Fixpoint strides (s : list nat) : list nat :=
  match s with
  | [] => []
  | _ :: s' => size s' :: strides s'
  end.

(** The multi-index of position [q] of a row-major buffer of shape [s]. *)
Fixpoint unravel (s : list nat) (q : nat) : list nat :=
  match s with
  | [] => []
  | _ :: s' => q / size s' :: unravel s' (q mod size s')
  end.

(** The buffer position of a multi-index under the strides [st]. *)
Definition offset (idx st : list nat) : nat :=
  fold_right Nat.add 0 (map (fun p => fst p * snd p) (combine idx st)).

(** The checks of [PyArray_Transpose] on each axis, in order ([AxisError]
    is a [ValueError]). *)
Fixpoint check_axes (n : nat) (seen axes : list nat) : option exn :=
  match axes with
  | [] => None
  | a :: rest =>
      if n <=? a then
        Some (ValueError ("axis " ++ str a ++ " is out of bounds for array of dimension "
                          ++ str n)%string)
      else if existsb (Nat.eqb a) seen then
        Some (ValueError "repeated axis in transpose")
      else check_axes n (a :: seen) rest
  end.

Section Layout.

Context {F : Type} {A : Arith F}.

(** [X[i, j, k]] for a 3-D array. *)
Definition item3 (X : ndarray F) (i j k : nat) : F :=
  nth ((i * shape_at X 1 + j) * shape_at X 2 + k) (data X) f0.

(** [X[:, slice(start, stop, step)]] for a 2-D array [X]. *)
Definition getitem_cols (X : ndarray F) (start stop step : nat) : result (ndarray F) :=
  if step =? 0 then Raise (ValueError "slice step cannot be zero")
  else
    let idx := slice_indices (shape_at X 1) start stop step in
    Ok (mk_ndarray [shape_at X 0; length idx]
          (flat_map (fun r => map (fun c => item2 X r c) idx) (seq 0 (shape_at X 0)))).

(** [np.stack(arrays, axis)]: the arrays must have one shape; the new axis
    of length [len(arrays)] is inserted at [axis], and the buffers are
    interleaved in blocks of the items behind that axis. *)
Definition np_stack (arrays : list (ndarray F)) (axis : nat) : result (ndarray F) :=
  match arrays with
  | [] => Raise (ValueError "need at least one array to stack")
  | a :: _ =>
      if negb (forallb (fun b => if list_eq_dec Nat.eq_dec (shape b) (shape a)
                                 then true else false) arrays)
      then Raise (ValueError "all input arrays must have the same shape")
      else if ndim a <? axis then
        Raise (ValueError ("axis " ++ str axis ++ " is out of bounds for array of dimension "
                           ++ str (ndim a + 1))%string)
      else
        let outer := size (firstn axis (shape a)) in
        let inner := size (skipn axis (shape a)) in
        Ok (mk_ndarray (firstn axis (shape a) ++ length arrays :: skipn axis (shape a))
              (flat_map (fun o => flat_map (fun b => firstn inner (skipn (o * inner) (data b)))
                                           arrays)
                        (seq 0 outer)))
  end.

(** [X.transpose(axes)], read out in row-major order: the shape and the
    strides are permuted, the items are those of [X]. *)
Definition np_transpose (X : ndarray F) (axes : list nat) : result (ndarray F) :=
  if negb (length axes =? ndim X) then Raise (ValueError "axes don't match array")
  else
    match check_axes (ndim X) [] axes with
    | Some e => Raise e
    | None =>
        let s' := map (fun a => nth a (shape X) 0) axes in
        let st' := map (fun a => nth a (strides (shape X)) 0) axes in
        Ok (mk_ndarray s'
              (map (fun q => nth (offset (unravel s' q) st') (data X) f0)
                   (seq 0 (size s'))))
    end.

(** The three correlated observing systems of the simulation notebook at
    pass [i] of its loop:
    [obs1 = sim_long[:, slice(0, 500 * (i + 1) * 3, 3 * (i + 1))]], and so on. *)
Definition obs1 (sim_long : ndarray F) (i : nat) : result (ndarray F) :=
  getitem_cols sim_long 0 (500 * (i + 1) * 3) (3 * (i + 1)).

Definition obs2 (sim_long : ndarray F) (i : nat) : result (ndarray F) :=
  getitem_cols sim_long (1 * (i + 1)) (500 * (i + 1) * 3 + 1 * (i + 1)) (3 * (i + 1)).

Definition obs3 (sim_long : ndarray F) (i : nat) : result (ndarray F) :=
  getitem_cols sim_long (2 * (i + 1)) (500 * (i + 1) * 3 + 2 * (i + 1)) (3 * (i + 1)).

(** The value assigned to [sim_corr[:, :, :, i]]:
    [np.stack((obs1, obs2, obs3), axis=0)]. *)
Definition sim_corr (sim_long : ndarray F) (i : nat) : result (ndarray F) :=
  o1 <- obs1 sim_long i ;;
  o2 <- obs2 sim_long i ;;
  o3 <- obs3 sim_long i ;;
  np_stack [o1; o2; o3] 0.

(** [sim = np.stack((sim15, sim2, sim3), axis=2).transpose((1, 2, 0))]. *)
Definition sim (sim15 sim2 sim3 : ndarray F) : result (ndarray F) :=
  stacked <- np_stack [sim15; sim2; sim3] 2 ;;
  np_transpose stacked [1; 2; 0].

End Layout.

(** ** The Clayton-Weibull correlation *)

Section ClaytonWeibull.

Local Open Scope R_scope.

(** [cw_stcs(tau, theta, bt, ct)] read over the real numbers, without
    rounding or overflow:
    [rho = (np.exp(theta * (tau / bt) ** ct)) ** (-1 / theta)].  [Rpower] is
    the power function on a positive base; the notebook calls [cw_stcs] with
    [tau >= 1] and [bt = 3].  (On float64 [np.exp] overflows for an argument
    above about 709.78, and the function then returns 0.0.) *)
Definition cw_stcs (tau theta bt ct : R) : R :=
  Rpower (exp (theta * Rpower (tau / bt) ct)) (-1 / theta).

End ClaytonWeibull.

(** ** Sample data *)

Definition qlist (l : list Z) : list Qc := map (fun z => Q2Qc (inject_Z z)) l.

Definition flist (l : list Z) : list binary64 := map b64_of_Z l.

(** Four observations of three systems. *)
Definition obs4 : list (list Z) :=
  [[1; 2; 3]; [2; 5; 4]; [4; 1; 9]; [0; 3; 3]]%Z.

(** Four observations in which systems 1 and 2 have sample covariance zero. *)
Definition obs4_singular : list (list Z) :=
  [[1; 0; 0]; [2; 1; 0]; [4; 0; 1]; [9; 1; 1]]%Z.

(** A signal and errors that are not orthogonal in the sample. *)
Definition signal4 : list Z := [0; 1; 2; 4]%Z.

Definition errors4 : list (list Z) :=
  [[1; 0; 0]; [0; 1; 0]; [0; 0; 1]; [1; 1; 0]]%Z.

(** A signal and errors that are exactly orthogonal in the sample (rows of
    a Hadamard matrix, the errors scaled by 1, 2 and 3). *)
Definition signal8 : list Z := [1; 1; 1; 1; -1; -1; -1; -1]%Z.

Definition errors8 : list (list Z) :=
  [[1; 2; 3]; [-1; 2; -3]; [1; -2; -3]; [-1; -2; 3];
   [1; 2; 3]; [-1; 2; -3]; [1; -2; -3]; [-1; -2; 3]]%Z.

(** Two pixels, four observations of three systems each: shape (4, 3, 2). *)
Definition obs_4x3x2 : ndarray binary64 :=
  mk_ndarray [4; 3; 2]
    (flist [1; 1; 2; 0; 3; 0;  2; 2; 5; 1; 4; 0;
            4; 4; 1; 0; 9; 1;  0; 9; 3; 1; 3; 1])%Z.

(** [obs4] with systems 0 and 1 exchanged. *)
Definition obs4_relabelled : list (list Z) :=
  [[2; 1; 3]; [5; 2; 4]; [1; 4; 9]; [3; 0; 3]]%Z.

(** The exchange of systems 0 and 1. *)
Definition swap01 (c : nat) : nat :=
  match c with
  | 0 => 1
  | 1 => 0
  | _ => c
  end.

(** [obs4] with its columns multiplied by 2, 3 and 5. *)
Definition obs4_rescaled : list (list Z) :=
  [[2; 6; 15]; [4; 15; 20]; [8; 3; 45]; [0; 9; 15]]%Z.

(** [obs4] with one missing observation of system 1. *)
Definition obs4_missing : ndarray binary64 :=
  of_rows [flist [1; 2; 3]%Z; [b64_of_Z 2; S754_nan; b64_of_Z 4];
           flist [4; 1; 9]%Z; flist [0; 3; 3]%Z].

(** The first two observations of [obs4]. *)
Definition obs4_two : list (list Z) := [[1; 2; 3]; [2; 5; 4]]%Z.

(** No errors at all, for four observations. *)
Definition errors4_none : list (list Z) :=
  [[0; 0; 0]; [0; 0; 0]; [0; 0; 0]; [0; 0; 0]]%Z.

(** Draws for a sample of six, and of four, observations. *)
Definition draws6 : list Z := [0; 10; 5; 10; 0; 5]%Z.

Definition errors6 : list (list Z) :=
  [[1; 0; 0]; [0; 1; 0]; [0; 0; 1]; [1; 1; 0]; [0; 1; 1]; [1; 0; 1]]%Z.

Definition draws4 : list Z := [0; 10; 5; 10]%Z.

(** One pixel, 1500 time steps: item [n] is [n]. *)
Definition sim_long_1500 : ndarray Qc :=
  mk_ndarray [1; 1500] (map of_nat (seq 0 1500)).

(** Three simulations of two pixels and three time steps. *)
Definition sim_a : list (list Z) := [[1; 2; 3]; [4; 5; 6]]%Z.

Definition sim_b : list (list Z) := [[11; 12; 13]; [14; 15; 16]]%Z.

Definition sim_c : list (list Z) := [[21; 22; 23]; [24; 25; 26]]%Z.

(** * Properties *)

(** ** Lists *)

Lemma nth_flat_map_seq {B : Type} (g : nat -> nat -> B) (d : B) (n m i j s : nat) :
  i < n -> j < m ->
  nth (i * m + j) (flat_map (fun v => map (g v) (seq 0 m)) (seq s n)) d = g (s + i) j.
Proof.
  revert s i. induction n as [|n IH]; intros s i Hi Hj; [lia|].
  cbn [seq flat_map]. destruct i as [|i].
  - rewrite app_nth1 by (rewrite length_map, length_seq; lia).
    cbn [Nat.mul Nat.add]. rewrite Nat.add_0_r.
    rewrite nth_indep with (d' := g s 0) by (rewrite length_map, length_seq; lia).
    rewrite (map_nth (g s) (seq 0 m) 0 j), seq_nth by lia. reflexivity.
  - rewrite app_nth2 by (rewrite length_map, length_seq; lia).
    rewrite length_map, length_seq.
    replace (S i * m + j - m) with (i * m + j) by lia.
    rewrite IH by lia. f_equal. lia.
Qed.

(** ** The program on any carrier *)

Section Generic.

Context {F : Type} {A : Arith F}.
Local Open Scope arith_scope.

Lemma shape_2d (X : ndarray F) :
  ndim X = 2 -> shape X = [shape_at X 0; shape_at X 1].
Proof.
  unfold ndim, shape_at. destruct (shape X) as [|r [|c [|? ?]]]; intros H; try discriminate.
  reflexivity.
Qed.

Lemma cov_transposes_true (ver : numpy_release) (X : ndarray F) :
  ndim X = 2 -> shape_at X 0 <> 1 \/ ver = numpy_2_2 -> cov_transposes ver X = true.
Proof.
  intros H2 H. unfold cov_transposes, shape2. rewrite (shape_2d X H2).
  destruct ver; cbn [fst].
  - destruct H as [H|H]; [|discriminate]. now rewrite (proj2 (Nat.eqb_neq _ _) H).
  - now rewrite H2.
Qed.

Lemma np_cov_transposed (ver : numpy_release) (X : ndarray F) :
  ndim X = 2 -> cov_transposes ver X = true -> shape_at X 1 <> 0 ->
  np_cov ver X = Ok (squeeze (cov_matrix X)).
Proof.
  intros H2 Ht HM. unfold np_cov. rewrite H2. cbn [Nat.ltb Nat.leb].
  unfold shape2. rewrite (shape_2d X H2), Ht.
  rewrite (proj2 (Nat.eqb_neq _ _) HM). reflexivity.
Qed.

Lemma np_cov_not_transposed_shape (ver : numpy_release) (X : ndarray F) (covar : ndarray F) :
  ndim X = 2 -> shape_at X 1 <> 0 -> cov_transposes ver X = false ->
  np_cov ver X = Ok covar -> shape covar = [].
Proof.
  intros H2 HM Ht. unfold np_cov. rewrite H2. cbn [Nat.ltb Nat.leb].
  unfold shape2. rewrite (shape_2d X H2), Ht.
  destruct ver.
  - unfold cov_transposes, shape2 in Ht. rewrite (shape_2d X H2) in Ht. cbn [fst] in Ht.
    apply negb_false_iff, Nat.eqb_eq in Ht. rewrite Ht. cbn [Nat.eqb].
    intros E. injection E as <-. reflexivity.
  - unfold cov_transposes in Ht. rewrite H2 in Ht. discriminate.
Qed.

Lemma squeeze_matrix (M : nat) (l : list F) :
  2 <= M -> squeeze (mk_ndarray [M; M] l) = mk_ndarray [M; M] l.
Proof.
  intros HM. unfold squeeze. cbn [shape data filter].
  destruct (Nat.eqb_spec M 1); [lia|]. reflexivity.
Qed.

Lemma getitem2_cov_matrix (X : ndarray F) (i j : nat) :
  i < shape_at X 1 -> j < shape_at X 1 ->
  getitem2 (cov_matrix X) i j = Ok (cov_entry X i j).
Proof.
  intros Hi Hj. unfold getitem2, cov_matrix. cbn [shape data].
  rewrite (proj2 (Nat.ltb_lt _ _) Hi), (proj2 (Nat.ltb_lt _ _) Hj). cbn [negb].
  now rewrite nth_flat_map_seq.
Qed.

(** What [tc_covar] returns once both checks pass and [np.cov] has
    transposed its input: the three quotients of the source, on the entries
    of the covariance matrix. *)
Lemma tc_covar_transposed (ver : numpy_release) (X : ndarray F) :
  ndim X = 2 -> shape_at X 1 = 3 -> cov_transposes ver X = true ->
  let c := cov_entry X in
  tc_covar ver X =
  Ok (np_array [c 0 0 [-] c 0 1 [*] c 0 2 [/] c 1 2;
                c 1 1 [-] c 0 1 [*] c 1 2 [/] c 0 2;
                c 2 2 [-] c 0 2 [*] c 1 2 [/] c 0 1]).
Proof.
  intros H2 H3 Ht c. unfold tc_covar.
  rewrite H2, H3. cbn [Nat.eqb negb].
  rewrite (np_cov_transposed ver X H2 Ht) by lia.
  unfold cov_matrix at 1. rewrite H3, squeeze_matrix by lia.
  fold (cov_matrix X) in |- *.
  assert (G : forall i j, i < 3 -> j < 3 ->
              getitem2 (mk_ndarray [3; 3]
                (flat_map (fun v => map (cov_entry X v) (seq 0 3)) (seq 0 3))) i j
              = Ok (cov_entry X i j)).
  { intros i j Hi Hj. pose proof (getitem2_cov_matrix X i j) as G.
    unfold cov_matrix in G. rewrite H3 in G. now apply G. }
  unfold tc_entry. cbn [fst snd bind].
  rewrite !G by lia. reflexivity.
Qed.

End Generic.

Section GenericChecks.

Context {F : Type} {A : Arith F}.
Local Open Scope arith_scope.

(** NumPy before 2.2 keeps a single row as one variable: the covariance is 0-d and
    the first item access of [tc_covar] fails. *)
Lemma tc_covar_single_row_pre_2_2 (X : ndarray F) :
  ndim X = 2 -> shape_at X 1 = 3 -> shape_at X 0 = 1 ->
  tc_covar numpy_pre_2_2 X = Raise (IndexError msg_0d).
Proof.
  intros H2 H3 H1. unfold tc_covar. rewrite H2, H3. cbn [Nat.eqb negb].
  unfold np_cov, cov_transposes, shape2. rewrite H2, (shape_2d X H2), H1, H3.
  reflexivity.
Qed.

Lemma tc_covar_no_ValueError (ver : numpy_release) (X : ndarray F) (msg : string) :
  ndim X = 2 -> shape_at X 1 = 3 -> tc_covar ver X <> Raise (ValueError msg).
Proof.
  intros H2 H3.
  destruct (Nat.eq_dec (shape_at X 0) 1) as [H1|H1]; destruct ver.
  - rewrite tc_covar_single_row_pre_2_2 by assumption. discriminate.
  - rewrite tc_covar_transposed; auto using cov_transposes_true. discriminate.
  - rewrite tc_covar_transposed; auto using cov_transposes_true. discriminate.
  - rewrite tc_covar_transposed; auto using cov_transposes_true. discriminate.
Qed.

End GenericChecks.

(** C2. [tc_covar] raises [ValueError] exactly when its input is not
    2-dimensional or its trailing axis is not of length 3; the first failed
    check decides the message, which names the constraint and the offending
    value; no computation precedes the checks.  On every carrier and for
    every NumPy release. *)
Theorem tc_covar_shape_checks {F : Type} {A : Arith F}
    (ver : numpy_release) (X : ndarray F) :
  ((exists msg, tc_covar ver X = Raise (ValueError msg))
   <-> (ndim X <> 2 \/ shape_at X 1 <> 3))
  /\ (ndim X <> 2 ->
      tc_covar ver X =
      Raise (ValueError ("X must be a 2D array input. Current number of dimensions: "
                         ++ str (ndim X))%string))
  /\ (ndim X = 2 -> shape_at X 1 <> 3 ->
      tc_covar ver X =
      Raise (ValueError ("X must have a trailing dimension of length 3."
                         ++ "Current trailing dimension length: "
                         ++ str (shape_at X 1))%string)).
Proof.
  assert (E1 : ndim X <> 2 ->
      tc_covar ver X =
      Raise (ValueError ("X must be a 2D array input. Current number of dimensions: "
                         ++ str (ndim X))%string)).
  { intros H. unfold tc_covar. now rewrite (proj2 (Nat.eqb_neq _ _) H). }
  assert (E2 : ndim X = 2 -> shape_at X 1 <> 3 ->
      tc_covar ver X =
      Raise (ValueError ("X must have a trailing dimension of length 3."
                         ++ "Current trailing dimension length: "
                         ++ str (shape_at X 1))%string)).
  { intros H2 H. unfold tc_covar. rewrite H2. cbn [Nat.eqb negb].
    now rewrite (proj2 (Nat.eqb_neq _ _) H). }
  split; [|split; assumption].
  split.
  - intros [msg Hm].
    destruct (Nat.eq_dec (ndim X) 2) as [H2|H2]; [|now left].
    destruct (Nat.eq_dec (shape_at X 1) 3) as [H3|H3]; [|now right].
    exfalso. exact (tc_covar_no_ValueError ver X msg H2 H3 Hm).
  - intros [H|H].
    + eexists. now apply E1.
    + destruct (Nat.eq_dec (ndim X) 2) as [H2|H2].
      * eexists. now apply E2.
      * eexists. now apply E1.
Qed.

(** The two [ValueError] messages, on a 1-D array and on a 2 x 2 array. *)
Example tc_covar_rejects_1d :
  tc_covar numpy_pre_2_2 (mk_ndarray [3] (flist [1; 2; 3]%Z))
  = Raise (ValueError
             "X must be a 2D array input. Current number of dimensions: 1").
Proof. reflexivity. Qed.

Example tc_covar_rejects_two_columns :
  tc_covar numpy_pre_2_2 (frows [[1; 2]; [3; 4]]%Z)
  = Raise (ValueError
       "X must have a trailing dimension of length 3.Current trailing dimension length: 2").
Proof. reflexivity. Qed.

(** More than three columns are rejected too. *)
Example tc_covar_rejects_four_columns :
  tc_covar numpy_pre_2_2 (frows [[1; 2; 3; 4]; [3; 4; 5; 7]]%Z)
  = Raise (ValueError
       "X must have a trailing dimension of length 3.Current trailing dimension length: 4").
Proof. reflexivity. Qed.

(** ** IEEE-754 special values *)

Module IEEE.

Lemma div_by_zero_not_finite (x : binary64) (s : bool) :
  is_finite (fdiv x (S754_zero s)) = false.
Proof. destruct x; reflexivity. Qed.

Lemma sub_not_finite_r (a y : binary64) :
  is_finite y = false -> is_finite (fsub a y) = false.
Proof.
  destruct y as [sy|sy| |sy my ey]; try discriminate; intros _.
  - destruct a as [sa|sa| |sa ma ea]; try reflexivity.
    cbn. destruct sa, sy; reflexivity.
  - destruct a; reflexivity.
Qed.

Lemma one_over_zero : fdiv (of_nat 1) (of_nat 0) = S754_infinity false.
Proof. reflexivity. Qed.

Lemma mul_inf_not_finite (d : binary64) (s : bool) :
  is_finite (fmul d (S754_infinity s)) = false.
Proof. destruct d; reflexivity. Qed.

(** With no finite operand, the quotient [a - b * c / d] is NaN. *)
Lemma quotient_of_non_finite (a b c d : binary64) :
  is_finite b = false -> is_finite c = false -> is_finite d = false ->
  fsub a (fdiv (fmul b c) d) = S754_nan.
Proof.
  destruct b, c, d; try discriminate; intros _ _ _; destruct a; reflexivity.
Qed.

End IEEE.

(** C4. On IEEE-754 binary64: when the covariance entry that output entry
    [k] divides by ([covar[1,2]], [covar[0,2]], [covar[0,1]] for
    [k = 0, 1, 2]) is a zero, [tc_covar] raises nothing and returns its
    length-3 vector, and entry [k] of it is not finite (an infinity or NaN),
    hence not a zero. *)
Theorem tc_covar_zero_denominator (ver : numpy_release) (X covar : ndarray binary64)
    (k : nat) (z : binary64) :
  ndim X = 2 -> shape_at X 1 = 3 -> k < 3 ->
  np_cov ver X = Ok covar ->
  getitem2 covar (fst (denominator_of k)) (snd (denominator_of k)) = Ok z ->
  is_zero z = true ->
  exists evar,
    tc_covar ver X = Ok evar /\ shape evar = [3]
    /\ is_finite (nth k (data evar) f0) = false
    /\ is_zero (nth k (data evar) f0) = false.
Proof.
  intros H2 H3 Hk Hcov Hget Hz.
  destruct (cov_transposes ver X) eqn:Ht.
  - rewrite (tc_covar_transposed ver X H2 H3 Ht).
    eexists. split; [reflexivity|]. split; [reflexivity|].
    rewrite (np_cov_transposed ver X H2 Ht) in Hcov by lia.
    injection Hcov as <-.
    unfold cov_matrix in Hget. rewrite H3, squeeze_matrix in Hget by lia.
    assert (G : forall i j, i < 3 -> j < 3 ->
              getitem2 (mk_ndarray [3; 3]
                (flat_map (fun v => map (cov_entry X v) (seq 0 3)) (seq 0 3))) i j
              = Ok (cov_entry X i j)).
    { intros i j Hi Hj. pose proof (getitem2_cov_matrix X i j) as G.
      unfold cov_matrix in G. rewrite H3 in G. now apply G. }
    assert (NF : forall a b, is_finite (fsub a (fdiv b z)) = false).
    { intros a b. apply IEEE.sub_not_finite_r.
      destruct z; try discriminate. apply IEEE.div_by_zero_not_finite. }
    assert (NZ : forall x : binary64, is_finite x = false -> is_zero x = false).
    { intros x; destruct x; try discriminate; reflexivity. }
    destruct k as [|[|[|k]]]; [| | |lia]; cbn [denominator_of fst snd] in Hget;
      rewrite G in Hget by lia; injection Hget as <-;
      cbn [np_array data nth]; split; [apply NF|apply NZ, NF| apply NF|apply NZ, NF
                                              | apply NF|apply NZ, NF].
  - assert (Hs : shape covar = [])
      by (apply (np_cov_not_transposed_shape ver X covar H2); [lia|assumption..]).
    unfold getitem2 in Hget. rewrite Hs in Hget. discriminate.
Qed.

(** An instance: [covar[1,2]] is zero and entry 0 is minus infinity. *)
Lemma tc_covar_zero_denominator_witness :
  exists evar,
    tc_covar numpy_pre_2_2 (frows obs4_singular) = Ok evar
    /\ shape evar = [3]
    /\ is_finite (nth 0 (data evar) f0) = false
    /\ is_zero (nth 0 (data evar) f0) = false.
Proof.
  refine (tc_covar_zero_denominator numpy_pre_2_2 (frows obs4_singular) _ 0 _
            eq_refl eq_refl _ _ _ _).
  - lia.
  - vm_compute. reflexivity.
  - vm_compute. reflexivity.
  - reflexivity.
Defined.

(** C10 (as amended).  A one-row, three-column input passes both checks of
    [tc_covar], so no [ValueError] is raised for it.  What follows is decided
    by [np.cov]: NumPy 2.2 and later transpose the row, every covariance is a
    product with [1 / 0.0] and the three returned entries are NaN; NumPy
    before 2.2 (1.x, 2.0, 2.1) keeps the row as one variable, the covariance
    is 0-dimensional and [covar[0, 0]] raises [IndexError]. *)
Theorem tc_covar_single_row (X : ndarray binary64) :
  ndim X = 2 -> shape_at X 1 = 3 -> shape_at X 0 = 1 ->
  (forall ver msg, tc_covar ver X <> Raise (ValueError msg))
  /\ tc_covar numpy_2_2 X = Ok (np_array [S754_nan; S754_nan; S754_nan])
  /\ tc_covar numpy_pre_2_2 X = Raise (IndexError msg_0d).
Proof.
  intros H2 H3 H1. split; [|split].
  - intros ver msg. now apply tc_covar_no_ValueError.
  - rewrite tc_covar_transposed by (auto using cov_transposes_true).
    assert (NF : forall v w, is_finite (cov_entry X v w) = false).
    { intros v w. unfold cov_entry. rewrite H1.
      change (1 - 1) with 0. rewrite IEEE.one_over_zero.
      apply IEEE.mul_inf_not_finite. }
    cbv zeta. now rewrite !IEEE.quotient_of_non_finite by apply NF.
  - now apply tc_covar_single_row_pre_2_2.
Qed.

(** An instance: the row [1, 2, 3]. *)
Lemma tc_covar_single_row_witness :
  (forall ver msg, tc_covar ver (frows [[1; 2; 3]]%Z) <> Raise (ValueError msg))
  /\ tc_covar numpy_2_2 (frows [[1; 2; 3]]%Z)
     = Ok (np_array [S754_nan; S754_nan; S754_nan])
  /\ tc_covar numpy_pre_2_2 (frows [[1; 2; 3]]%Z) = Raise (IndexError msg_0d).
Proof.
  apply (tc_covar_single_row (frows [[1; 2; 3]]%Z)); reflexivity.
Defined.

(** The claim of C10 fails on NumPy before 2.2: a one-row input raises. *)
Lemma tc_covar_single_row_raises :
  tc_covar numpy_pre_2_2 (frows [[1; 2; 3]]%Z) = Raise (IndexError msg_0d)
  /\ ~ exists evar, tc_covar numpy_pre_2_2 (frows [[1; 2; 3]]%Z) = Ok evar.
Proof.
  split; [reflexivity|]. intros [evar H]. vm_compute in H. discriminate.
Qed.

(** ** Exact arithmetic: the code computes the sample statistics *)

Module ExactProps.

Import Exact.
Local Open Scope Qc_scope.

Lemma fold_left_Qcplus (l : list Qc) (a : Qc) :
  fold_left Qcplus l a = a + fold_left Qcplus l 0.
Proof.
  revert a. induction l as [|x l IH]; intros a; cbn [fold_left].
  - ring.
  - rewrite IH, (IH (0 + x)). ring.
Qed.

Lemma fsum_app (l1 l2 : list Qc) : fsum (l1 ++ l2) = fsum l1 + fsum l2.
Proof.
  unfold fsum. cbn [fadd f0 Arith_Qc]. rewrite fold_left_app.
  now rewrite fold_left_Qcplus.
Qed.

Lemma fsum_map_seq (N : nat) (f : nat -> Qc) :
  fsum (map f (seq 0 N)) = bigsum N f.
Proof.
  induction N as [|N IH]; [reflexivity|].
  rewrite seq_S, map_app, fsum_app, IH. cbn [bigsum Nat.add map].
  unfold fsum. cbn [fold_left fadd f0 Arith_Qc]. ring.
Qed.

Lemma bigsum_ext (N : nat) (f g : nat -> Qc) :
  (forall n, (n < N)%nat -> f n = g n) -> bigsum N f = bigsum N g.
Proof.
  induction N as [|N IH]; intros H; [reflexivity|].
  cbn [bigsum]. rewrite IH, H by auto with arith. reflexivity.
Qed.

Lemma bigsum_plus (N : nat) (f g : nat -> Qc) :
  bigsum N (fun n => f n + g n) = bigsum N f + bigsum N g.
Proof. induction N as [|N IH]; cbn [bigsum]; [|rewrite IH]; ring. Qed.

Lemma bigsum_scal (N : nat) (c : Qc) (f : nat -> Qc) :
  bigsum N (fun n => c * f n) = c * bigsum N f.
Proof. induction N as [|N IH]; cbn [bigsum]; [|rewrite IH]; ring. Qed.

Lemma count_S (n : nat) : count (S n) = count n + 1.
Proof.
  unfold count. apply Qc_is_canon. rewrite Nat2Z.inj_succ.
  unfold Qcplus, Q2Qc, this. rewrite !Qred_correct.
  unfold Z.succ. rewrite inject_Z_plus. reflexivity.
Qed.

Lemma count_0 : count 0 = 0.
Proof. now apply Qc_is_canon. Qed.

Lemma count_1 : count 1 = 1.
Proof. now apply Qc_is_canon. Qed.

Lemma bigsum_const (N : nat) (c : Qc) : bigsum N (fun _ => c) = count N * c.
Proof.
  induction N as [|N IH]; cbn [bigsum].
  - rewrite count_0. ring.
  - rewrite IH, count_S. ring.
Qed.

Lemma count_pos (n : nat) : (0 < n)%nat -> count n <> 0.
Proof.
  intros Hn E. unfold count in E.
  apply (f_equal this) in E. cbn [this Q2Qc] in E.
  assert (Q : (inject_Z (Z.of_nat n) == 0)%Q).
  { rewrite <- (Qred_correct (inject_Z (Z.of_nat n))), E. reflexivity. }
  unfold Qeq, inject_Z in Q. cbn in Q. lia.
Qed.

Lemma column_items (X : ndarray Qc) (i : nat) :
  column X i = map (fun n => item2 X n i) (seq 0 (shape_at X 0)).
Proof. reflexivity. Qed.

Lemma mean_column (X : ndarray Qc) (i : nat) : mean (column X i) = col_mean X i.
Proof.
  unfold mean, col_mean, seq_mean.
  rewrite column_items, length_map, length_seq, fsum_map_seq. reflexivity.
Qed.

Lemma center_column (X : ndarray Qc) (i : nat) :
  center (column X i)
  = map (fun n => item2 X n i - col_mean X i) (seq 0 (shape_at X 0)).
Proof.
  unfold center. rewrite mean_column, column_items, map_map. reflexivity.
Qed.

Lemma dot_map_seq (N : nat) (f g : nat -> Qc) :
  dot (map f (seq 0 N)) (map g (seq 0 N)) = bigsum N (fun n => f n * g n).
Proof.
  unfold dot. rewrite <- fsum_map_seq. f_equal.
  generalize (seq 0 N) as l. induction l as [|n l IH]; [reflexivity|].
  cbn [map combine fst snd]. now rewrite IH.
Qed.

(** The entry [np_cov] computes is the unbiased sample covariance. *)
Lemma cov_entry_sample_cov (X : ndarray Qc) (i j : nat) :
  cov_entry X i j = sample_cov X i j.
Proof.
  unfold cov_entry, sample_cov, seq_cov. rewrite !center_column, dot_map_seq.
  cbn [fmul fdiv of_nat Arith_Qc]. fold (count 1) (count (shape_at X 0 - 1)).
  rewrite count_1. unfold col_mean, Qcdiv. ring.
Qed.

Lemma sample_cov_sym (X : ndarray Qc) (i j : nat) :
  sample_cov X i j = sample_cov X j i.
Proof.
  unfold sample_cov, seq_cov. f_equal. apply bigsum_ext. intros n _. ring.
Qed.

Lemma sample_cov_diag (X : ndarray Qc) (i : nat) :
  sample_cov X i i = sample_var X i.
Proof.
  unfold sample_cov, seq_cov, sample_var, col_mean. f_equal.
  apply bigsum_ext. intros n _. cbn [Qcpower]. ring.
Qed.

(** *** Shifts and scalings of the observations *)

Lemma seq_cov_ext (N : nat) (x x' y y' : nat -> Qc) :
  (forall n, (n < N)%nat -> x n = x' n) -> (forall n, (n < N)%nat -> y n = y' n) ->
  seq_cov N x y = seq_cov N x' y'.
Proof.
  intros Hx Hy. unfold seq_cov, seq_mean.
  rewrite (bigsum_ext N x x' Hx), (bigsum_ext N y y' Hy).
  f_equal. apply bigsum_ext. intros n Hn. now rewrite Hx, Hy.
Qed.

Lemma seq_cov_sym (N : nat) (x y : nat -> Qc) : seq_cov N x y = seq_cov N y x.
Proof. unfold seq_cov. f_equal. apply bigsum_ext. intros n _. ring. Qed.

Lemma seq_mean_shift (N : nat) (a : Qc) (x : nat -> Qc) :
  (1 <= N)%nat -> seq_mean N (fun n => x n + a) = seq_mean N x + a.
Proof.
  intros HN. unfold seq_mean. rewrite bigsum_plus, bigsum_const.
  field. apply count_pos. lia.
Qed.

(** Adding a constant to a series changes no covariance. *)
Lemma seq_cov_shift (N : nat) (a b : Qc) (x y : nat -> Qc) :
  (1 <= N)%nat ->
  seq_cov N (fun n => x n + a) (fun n => y n + b) = seq_cov N x y.
Proof.
  intros HN. unfold seq_cov. rewrite !seq_mean_shift by assumption.
  f_equal. apply bigsum_ext. intros n _. ring.
Qed.

Lemma seq_mean_linear (N : nat) (b : Qc) (t e : nat -> Qc) :
  seq_mean N (fun n => b * t n + e n) = b * seq_mean N t + seq_mean N e.
Proof.
  unfold seq_mean. rewrite bigsum_plus, bigsum_scal. unfold Qcdiv. ring.
Qed.

(** The sample covariance is bilinear. *)
Lemma seq_cov_linear_l (N : nat) (b : Qc) (t e y : nat -> Qc) :
  seq_cov N (fun n => b * t n + e n) y = b * seq_cov N t y + seq_cov N e y.
Proof.
  unfold seq_cov. rewrite seq_mean_linear.
  rewrite (bigsum_ext N _
             (fun n => b * ((t n - seq_mean N t) * (y n - seq_mean N y))
                       + (e n - seq_mean N e) * (y n - seq_mean N y)))
    by (intros n _; ring).
  rewrite bigsum_plus, bigsum_scal. unfold Qcdiv. ring.
Qed.

Lemma seq_cov_linear_r (N : nat) (b : Qc) (t e x : nat -> Qc) :
  seq_cov N x (fun n => b * t n + e n) = b * seq_cov N x t + seq_cov N x e.
Proof.
  rewrite seq_cov_sym, seq_cov_linear_l.
  now rewrite (seq_cov_sym N t x), (seq_cov_sym N e x).
Qed.

(** The covariance of two series of the affine error model. *)
Lemma seq_cov_affine (N : nat) (a a' b b' : Qc) (t e e' : nat -> Qc) :
  (1 <= N)%nat ->
  seq_cov N (fun n => a + b * t n + e n) (fun n => a' + b' * t n + e' n)
  = b * b' * seq_cov N t t + b * seq_cov N t e' + b' * seq_cov N e t
    + seq_cov N e e'.
Proof.
  intros HN.
  rewrite (seq_cov_ext N _ (fun n => (b * t n + e n) + a)
                         _ (fun n => (b' * t n + e' n) + a'))
    by (intros n _; ring).
  rewrite seq_cov_shift by assumption.
  rewrite seq_cov_linear_l, !seq_cov_linear_r. ring.
Qed.

Lemma nth_map_combine_seq {B : Type} (g : nat -> B -> B) (l : list B) (d : B)
    (s k : nat) :
  (k < length l)%nat ->
  nth k (map (fun p => g (fst p) (snd p)) (combine (seq s (length l)) l)) d
  = g (s + k)%nat (nth k l d).
Proof.
  revert s k. induction l as [|x l IH]; intros s k Hk; cbn [length] in *; [lia|].
  cbn [seq combine map fst snd]. destruct k as [|k]; cbn [nth].
  - now rewrite Nat.add_0_r.
  - rewrite IH by lia. f_equal. lia.
Qed.

Lemma item2_add_rowvec (X : ndarray Qc) (a : list Qc) (n i : nat) :
  well_formed X -> ndim X = 2 ->
  (n < shape_at X 0)%nat -> (i < shape_at X 1)%nat ->
  item2 (add_rowvec X a) n i = item2 X n i + nth i a 0.
Proof.
  intros Hwf H2 Hn Hi. unfold item2, add_rowvec. cbn [data].
  change (shape_at (mk_ndarray (shape X) _) 1) with (shape_at X 1).
  unfold well_formed in Hwf. rewrite (shape_2d X H2) in Hwf.
  cbn [fold_right] in Hwf. rewrite Nat.mul_1_r in Hwf.
  rewrite (nth_map_combine_seq
             (fun k x => fadd x (nth (k mod shape_at X 1) a f0)) (data X) f0 0)
    by (rewrite Hwf; nia).
  cbn [Nat.add fadd f0 Arith_Qc]. do 2 f_equal.
  symmetry. apply (Nat.mod_unique _ _ n); [assumption|lia].
Qed.

Lemma sample_cov_add_rowvec (X : ndarray Qc) (a : list Qc) (i j : nat) :
  well_formed X -> ndim X = 2 -> (1 <= shape_at X 0)%nat ->
  (i < shape_at X 1)%nat -> (j < shape_at X 1)%nat ->
  sample_cov (add_rowvec X a) i j = sample_cov X i j.
Proof.
  intros Hwf H2 HN Hi Hj. unfold sample_cov.
  change (shape_at (add_rowvec X a) 0) with (shape_at X 0).
  rewrite (seq_cov_ext _ _ (fun n => item2 X n i + nth i a 0)
                         _ (fun n => item2 X n j + nth j a 0))
    by (intros n Hn; now apply item2_add_rowvec).
  now apply seq_cov_shift.
Qed.

Lemma item2_generate_sample (alpha beta t : list Qc) (errors : ndarray Qc) (n i : nat) :
  (n < shape_at errors 0)%nat -> (i < shape_at errors 1)%nat ->
  item2 (generate_sample alpha beta t errors) n i
  = nth i alpha 0 + nth i beta 0 * nth n t 0 + item2 errors n i.
Proof.
  intros Hn Hi. unfold item2 at 1, generate_sample. cbn [data].
  change (shape_at (mk_ndarray [shape_at errors 0; shape_at errors 1] _) 1)
    with (shape_at errors 1).
  now rewrite nth_flat_map_seq.
Qed.

End ExactProps.

Section ExactClaims.

Import Exact ExactProps.
Local Open Scope Qc_scope.

(** The covariance builder in exact arithmetic.  For an [N x M] input with
    [N >= 2] rows and [M >= 2] columns, [np.cov(X, rowvar=False)] returns the
    [M x M] matrix whose entry [(i, j)] is [sum_n (X[n,i] - mean_i) *
    (X[n,j] - mean_j) / (N - 1)]; the matrix is symmetric, and its diagonal
    holds the sample variances of the columns. *)
Lemma np_cov_sample_covariance_exact (ver : numpy_release) (X : ndarray Qc) :
  ndim X = 2 -> (2 <= shape_at X 0)%nat -> (2 <= shape_at X 1)%nat ->
  exists covar,
    np_cov ver X = Ok covar
    /\ shape covar = [shape_at X 1; shape_at X 1]
    /\ (forall i j, (i < shape_at X 1)%nat -> (j < shape_at X 1)%nat ->
          getitem2 covar i j = Ok (sample_cov X i j)
          /\ getitem2 covar i j = getitem2 covar j i)
    /\ (forall i, (i < shape_at X 1)%nat ->
          getitem2 covar i i = Ok (sample_var X i)).
Proof.
  intros H2 HN HM.
  assert (Ht : cov_transposes ver X = true)
    by (apply cov_transposes_true; [assumption|left; lia]).
  exists (cov_matrix X).
  assert (Hsq : squeeze (cov_matrix X) = cov_matrix X)
    by (unfold cov_matrix; now rewrite squeeze_matrix).
  split; [|split; [reflexivity|split]].
  - rewrite (np_cov_transposed ver X H2 Ht) by lia. now rewrite Hsq.
  - intros i j Hi Hj. rewrite !getitem2_cov_matrix by assumption.
    rewrite !cov_entry_sample_cov. split; [reflexivity|].
    now rewrite sample_cov_sym.
  - intros i Hi. rewrite getitem2_cov_matrix by assumption.
    now rewrite cov_entry_sample_cov, sample_cov_diag.
Qed.

(** The value of [tc_covar] on a valid input, over the sample covariances. *)
Lemma tc_covar_sample_cov (ver : numpy_release) (X : ndarray Qc) :
  ndim X = 2 -> shape_at X 1 = 3%nat -> (2 <= shape_at X 0)%nat ->
  tc_covar ver X =
  Ok (np_array
        [sample_cov X 0 0 - sample_cov X 0 1 * sample_cov X 0 2 / sample_cov X 1 2;
         sample_cov X 1 1 - sample_cov X 0 1 * sample_cov X 1 2 / sample_cov X 0 2;
         sample_cov X 2 2 - sample_cov X 0 2 * sample_cov X 1 2 / sample_cov X 0 1]).
Proof.
  intros H2 H3 HN.
  rewrite tc_covar_transposed; [|assumption..|apply cov_transposes_true; auto; lia].
  cbv zeta. rewrite !cov_entry_sample_cov. reflexivity.
Qed.

(** The three quotients of the source are the closed form
    [sigma_ii - sigma_ij * sigma_ik / sigma_jk] at the cyclic permutations of
    [(0, 1, 2)]. *)
Lemma tc_covar_cyclic (ver : numpy_release) (X : ndarray Qc) :
  ndim X = 2 -> shape_at X 1 = 3%nat -> (2 <= shape_at X 0)%nat ->
  tc_covar ver X =
  Ok (np_array [tc_closed_form (sample_cov X) 0 1 2;
                tc_closed_form (sample_cov X) 1 2 0;
                tc_closed_form (sample_cov X) 2 0 1]).
Proof.
  intros H2 H3 HN. rewrite (tc_covar_sample_cov ver X H2 H3 HN).
  unfold tc_closed_form. cbn [fsub fmul fdiv Arith_Qc].
  rewrite (sample_cov_sym X 1 0), (sample_cov_sym X 2 0), (sample_cov_sym X 2 1).
  now rewrite (Qcmult_comm (sample_cov X 1 2) (sample_cov X 0 1)).
Qed.

(** X18. The closed form in exact arithmetic.  For a 2-dimensional input
    with exactly 3 columns and [N >= 2] rows whose sample covariances
    [sigma_12], [sigma_02], [sigma_01] are non-zero, [tc_covar] returns the
    vector of length 3 whose entry [i] is [sigma_ii - sigma_ij * sigma_ik /
    sigma_jk] over the exact unbiased sample covariances, for [(i, j, k)] the
    cyclic permutations of [(0, 1, 2)]; entry [i] is the solution [q] of the
    triple-collocation equation [(sigma_ii - q) * sigma_jk = sigma_ij *
    sigma_ik]. *)
Theorem tc_covar_closed_form_exact (ver : numpy_release) (X : ndarray Qc) :
  ndim X = 2 -> shape_at X 1 = 3%nat -> (2 <= shape_at X 0)%nat ->
  sample_cov X 1 2 <> 0 -> sample_cov X 0 2 <> 0 -> sample_cov X 0 1 <> 0 ->
  exists evar,
    tc_covar ver X = Ok evar
    /\ shape evar = [3%nat]
    /\ data evar = [tc_estimate X 0; tc_estimate X 1; tc_estimate X 2]
    /\ (sample_cov X 0 0 - nth 0 (data evar) 0) * sample_cov X 1 2
       = sample_cov X 0 1 * sample_cov X 0 2
    /\ (sample_cov X 1 1 - nth 1 (data evar) 0) * sample_cov X 0 2
       = sample_cov X 0 1 * sample_cov X 1 2
    /\ (sample_cov X 2 2 - nth 2 (data evar) 0) * sample_cov X 0 1
       = sample_cov X 0 2 * sample_cov X 1 2.
Proof.
  intros H2 H3 HN D12 D02 D01.
  eexists. split; [exact (tc_covar_cyclic ver X H2 H3 HN)|].
  split; [reflexivity|]. split; [reflexivity|].
  cbn [np_array data nth]. unfold tc_closed_form. cbn [fsub fmul fdiv Arith_Qc].
  rewrite (sample_cov_sym X 1 0), (sample_cov_sym X 2 0), (sample_cov_sym X 2 1).
  repeat split; field; assumption.
Qed.

End ExactClaims.

Lemma item_3x3 {F : Type} {A : Arith F} (covar : ndarray F) (i j : nat) :
  shape covar = [3; 3] -> i < 3 -> j < 3 ->
  getitem2 covar i j = Ok (nth (i * 3 + j) (data covar) f0).
Proof.
  intros Hs Hi Hj. unfold getitem2. rewrite Hs.
  rewrite (proj2 (Nat.ltb_lt _ _) Hi), (proj2 (Nat.ltb_lt _ _) Hj). reflexivity.
Qed.

(** An [M x M] matrix returned by [np_cov] for a 2-D input with [M >= 2]
    columns is [cov_matrix]. *)
Lemma np_cov_square {F : Type} {A : Arith F} (ver : numpy_release)
    (X covar : ndarray F) :
  ndim X = 2 -> 2 <= shape_at X 1 -> np_cov ver X = Ok covar ->
  shape covar = [shape_at X 1; shape_at X 1] ->
  covar = cov_matrix X.
Proof.
  intros H2 HM Hcov Hs.
  destruct (cov_transposes ver X) eqn:Ht.
  - rewrite (np_cov_transposed ver X H2 Ht) in Hcov by lia.
    injection Hcov as <-. unfold cov_matrix. now rewrite squeeze_matrix.
  - rewrite (np_cov_not_transposed_shape ver X covar H2) in Hs
      by (assumption || lia).
    discriminate.
Qed.

Lemma tc_covar_closed_form_exact_witness :
  exists evar,
    tc_covar numpy_pre_2_2 (zrows obs4) = Ok evar
    /\ shape evar = [3]
    /\ data evar = [Exact.tc_estimate (zrows obs4) 0; Exact.tc_estimate (zrows obs4) 1;
                    Exact.tc_estimate (zrows obs4) 2]
    /\ ((Exact.sample_cov (zrows obs4) 0 0 - nth 0 (data evar) 0)
        * Exact.sample_cov (zrows obs4) 1 2
        = Exact.sample_cov (zrows obs4) 0 1 * Exact.sample_cov (zrows obs4) 0 2)%Qc
    /\ ((Exact.sample_cov (zrows obs4) 1 1 - nth 1 (data evar) 0)
        * Exact.sample_cov (zrows obs4) 0 2
        = Exact.sample_cov (zrows obs4) 0 1 * Exact.sample_cov (zrows obs4) 1 2)%Qc
    /\ ((Exact.sample_cov (zrows obs4) 2 2 - nth 2 (data evar) 0)
        * Exact.sample_cov (zrows obs4) 0 1
        = Exact.sample_cov (zrows obs4) 0 2 * Exact.sample_cov (zrows obs4) 1 2)%Qc.
Proof.
  apply (tc_covar_closed_form_exact numpy_pre_2_2 (zrows obs4));
    try reflexivity; try (vm_compute; lia);
    intros H; apply (f_equal this) in H; vm_compute in H; discriminate.
Defined.

(** The estimates for the four observations [obs4]: 10/9, 34/15 and -44/13. *)
Example tc_covar_obs4_values :
  match tc_covar numpy_pre_2_2 (zrows obs4) with
  | Ok evar => map this (data evar) = [10 # 9; 34 # 15; -44 # 13]%Q
  | Raise _ => False
  end.
Proof. vm_compute. reflexivity. Qed.

Section AffineInvariance.

Import Exact ExactProps.
Local Open Scope Qc_scope.

(** Adding a constant to each column changes nothing. *)
Lemma tc_covar_add_rowvec (ver : numpy_release) (X : ndarray Qc) (a : list Qc) :
  well_formed X -> ndim X = 2 -> shape_at X 1 = 3%nat -> (2 <= shape_at X 0)%nat ->
  tc_covar ver (add_rowvec X a) = tc_covar ver X.
Proof.
  intros Hwf H2 H3 HN.
  rewrite (tc_covar_sample_cov ver X H2 H3 HN).
  rewrite (tc_covar_sample_cov ver (add_rowvec X a)) by assumption.
  now rewrite !sample_cov_add_rowvec by (try assumption; lia).
Qed.

(** Under the affine error model, when the errors are uncorrelated in the
    sample with the signal and with each other, the estimates are the sample
    variances of the errors, whatever the offsets and the non-zero scale
    factors. *)
Lemma tc_covar_generate_sample (ver : numpy_release) (alpha beta t : list Qc)
    (errors : ndarray Qc) :
  let N := shape_at errors 0 in
  let signal := fun n => nth n t 0 in
  let err := fun i n => item2 errors n i in
  shape_at errors 1 = 3%nat -> (2 <= N)%nat ->
  (forall i, (i < 3)%nat -> seq_cov N signal (err i) = 0) ->
  (forall i j, (i < 3)%nat -> (j < 3)%nat -> i <> j -> seq_cov N (err i) (err j) = 0) ->
  seq_cov N signal signal <> 0 ->
  (forall i, (i < 3)%nat -> nth i beta 0 <> 0) ->
  tc_covar ver (generate_sample alpha beta t errors)
  = Ok (np_array [sample_var errors 0; sample_var errors 1; sample_var errors 2]).
Proof.
  intros N signal err H3 HN Hte Hee Htt Hb.
  set (X := generate_sample alpha beta t errors).
  assert (S : forall i j, (i < 3)%nat -> (j < 3)%nat ->
            sample_cov X i j
            = nth i beta 0 * nth j beta 0 * seq_cov N signal signal
              + seq_cov N (err i) (err j)).
  { intros i j Hi Hj. unfold sample_cov.
    change (shape_at X 0) with N.
    rewrite (seq_cov_ext N _ (fun n => nth i alpha 0 + nth i beta 0 * signal n + err i n)
                           _ (fun n => nth j alpha 0 + nth j beta 0 * signal n + err j n))
      by (intros n Hn; apply item2_generate_sample; fold N; lia).
    rewrite seq_cov_affine by lia.
    rewrite (Hte j Hj), (seq_cov_sym N (err i) signal), (Hte i Hi). ring. }
  rewrite (tc_covar_sample_cov ver X) by (try reflexivity; assumption).
  rewrite !S by lia.
  rewrite (Hee 0%nat 1%nat), (Hee 0%nat 2%nat), (Hee 1%nat 2%nat) by lia.
  rewrite <- !sample_cov_diag. unfold sample_cov. fold N.
  fold (err 0%nat) (err 1%nat) (err 2%nat).
  pose proof (Hb 0%nat ltac:(lia)) as B0.
  pose proof (Hb 1%nat ltac:(lia)) as B1.
  pose proof (Hb 2%nat ltac:(lia)) as B2.
  do 3 f_equal; [|f_equal; [|f_equal]]; field; repeat split; assumption.
Qed.

(** C8 (as amended).  In exact arithmetic: adding a constant to each column
    of a valid input leaves [tc_covar] unchanged; and for observations
    [alpha_i + beta_i * t + eps_i] whose errors are exactly uncorrelated, in
    the sample, with the signal and with each other, [tc_covar] returns the
    sample variances of the errors for every choice of the offsets [alpha]
    and of non-zero scale factors [beta]. *)
Theorem tc_covar_affine_invariance :
  (forall (ver : numpy_release) (X : ndarray Qc) (a : list Qc),
     well_formed X -> ndim X = 2 -> shape_at X 1 = 3%nat -> (2 <= shape_at X 0)%nat ->
     tc_covar ver (add_rowvec X a) = tc_covar ver X)
  /\ (forall (ver : numpy_release) (alpha beta alpha' beta' t : list Qc)
        (errors : ndarray Qc),
      shape_at errors 1 = 3%nat -> (2 <= shape_at errors 0)%nat ->
      (forall i, (i < 3)%nat ->
         seq_cov (shape_at errors 0) (fun n => nth n t 0)
                 (fun n => item2 errors n i) = 0) ->
      (forall i j, (i < 3)%nat -> (j < 3)%nat -> i <> j ->
         seq_cov (shape_at errors 0) (fun n => item2 errors n i)
                 (fun n => item2 errors n j) = 0) ->
      seq_cov (shape_at errors 0) (fun n => nth n t 0) (fun n => nth n t 0) <> 0 ->
      (forall i, (i < 3)%nat -> nth i beta 0 <> 0) ->
      (forall i, (i < 3)%nat -> nth i beta' 0 <> 0) ->
      tc_covar ver (generate_sample alpha beta t errors)
      = tc_covar ver (generate_sample alpha' beta' t errors)
      /\ tc_covar ver (generate_sample alpha beta t errors)
         = Ok (np_array [sample_var errors 0; sample_var errors 1;
                         sample_var errors 2])).
Proof.
  split.
  - exact tc_covar_add_rowvec.
  - intros ver alpha beta alpha' beta' t errors H3 HN Hte Hee Htt Hb Hb'.
    rewrite (tc_covar_generate_sample ver alpha beta t errors) by assumption.
    rewrite (tc_covar_generate_sample ver alpha' beta' t errors) by assumption.
    split; reflexivity.
Qed.

End AffineInvariance.

(** Instances: a shift by [(10, 20, 30)], and two affine transformations of
    one orthogonal sample. *)
Lemma tc_covar_affine_invariance_witness :
  tc_covar numpy_pre_2_2 (add_rowvec (zrows obs4) (qlist [10; 20; 30]%Z))
  = tc_covar numpy_pre_2_2 (zrows obs4)
  /\ tc_covar numpy_pre_2_2 (generate_sample (qlist [0; 2; 4]%Z) (qlist [1; 3; 5]%Z)
                                      (qlist signal8) (zrows errors8))
     = tc_covar numpy_pre_2_2 (generate_sample (qlist [7; 7; 7]%Z) (qlist [2; 1; 9]%Z)
                                        (qlist signal8) (zrows errors8))
  /\ tc_covar numpy_pre_2_2 (generate_sample (qlist [0; 2; 4]%Z) (qlist [1; 3; 5]%Z)
                                      (qlist signal8) (zrows errors8))
     = Ok (np_array [Exact.sample_var (zrows errors8) 0;
                     Exact.sample_var (zrows errors8) 1;
                     Exact.sample_var (zrows errors8) 2]).
Proof.
  split.
  - apply (proj1 tc_covar_affine_invariance numpy_pre_2_2 (zrows obs4));
      [reflexivity | reflexivity | reflexivity | vm_compute; lia].
  - apply (proj2 tc_covar_affine_invariance numpy_pre_2_2
             (qlist [0; 2; 4]%Z) (qlist [1; 3; 5]%Z)
             (qlist [7; 7; 7]%Z) (qlist [2; 1; 9]%Z)
             (qlist signal8) (zrows errors8)).
    + reflexivity.
    + vm_compute; lia.
    + intros i Hi. destruct i as [|[|[|i]]]; [| | |lia];
        apply Qc_is_canon; vm_compute; reflexivity.
    + intros i j Hi Hj Hij.
      destruct i as [|[|[|i]]]; [| | |lia];
        (destruct j as [|[|[|j]]]; [| | |lia]); try congruence;
        apply Qc_is_canon; vm_compute; reflexivity.
    + intros H; apply (f_equal this) in H; vm_compute in H; discriminate.
    + intros i Hi. destruct i as [|[|[|i]]]; [| | |lia];
        intros H; apply (f_equal this) in H; vm_compute in H; discriminate.
    + intros i Hi. destruct i as [|[|[|i]]]; [| | |lia];
        intros H; apply (f_equal this) in H; vm_compute in H; discriminate.
Defined.

(** The claim of C8 fails for the scale factors: with the same signal,
    errors and offsets, [beta = (1, 3, 5)] and [beta = (2, 3, 5)] give
    different estimates, in exact arithmetic and on binary64. *)
Lemma tc_covar_depends_on_beta :
  tc_covar numpy_pre_2_2 (generate_sample (qlist [0; 2; 4]) (qlist [1; 3; 5])
                                   (qlist signal4) (zrows errors4))%Z
  <> tc_covar numpy_pre_2_2 (generate_sample (qlist [0; 2; 4]) (qlist [2; 3; 5])
                                      (qlist signal4) (zrows errors4))%Z
  /\ tc_covar numpy_pre_2_2 (generate_sample (flist [0; 2; 4]) (flist [1; 3; 5])
                                      (flist signal4) (frows errors4))%Z
     <> tc_covar numpy_pre_2_2 (generate_sample (flist [0; 2; 4]) (flist [2; 3; 5])
                                         (flist signal4) (frows errors4))%Z.
Proof.
  split; intros H; vm_compute in H; discriminate.
Qed.

(** X5. On binary64 a shift of the observations is absorbed only up to rounding:
    a large offset changes the estimates. *)
Example binary64_shift_changes_estimate :
  tc_covar numpy_pre_2_2 (add_rowvec (frows obs4) (flist [2 ^ 60; 0; 0]%Z))
  <> tc_covar numpy_pre_2_2 (frows obs4).
Proof. intros H; vm_compute in H; discriminate. Qed.

(** ** Extended collocation against triple collocation *)

Lemma mapM_ok {B C : Type} (f : B -> result C) (g : B -> C) (l : list B) :
  (forall b, In b l -> f b = Ok (g b)) -> mapM f l = Ok (map g l).
Proof.
  induction l as [|b l IH]; intros H; [reflexivity|].
  cbn [mapM map]. rewrite (H b (or_introl eq_refl)). cbn [bind].
  rewrite IH by (intros b' Hb'; apply H; now right). reflexivity.
Qed.

Lemma mapM_Forall2 {B C : Type} (f : B -> result C) (l : list B) (cs : list C) :
  mapM f l = Ok cs <-> Forall2 (fun b c => f b = Ok c) l cs.
Proof.
  revert cs. induction l as [|b l IH]; intros cs; cbn [mapM].
  - split.
    + intros E. injection E as <-. constructor.
    + intros E. inversion E. reflexivity.
  - split.
    + destruct (f b) as [c|e] eqn:Eb; [|discriminate]. cbn [bind].
      destruct (mapM f l) as [cs'|e] eqn:El; [|discriminate]. cbn [bind].
      intros E. injection E as <-. constructor; [assumption|]. now apply IH.
    + intros E. inversion E as [|b' c l' cs' Hb Hl]; subst.
      rewrite Hb. cbn [bind]. apply IH in Hl. rewrite Hl. reflexivity.
Qed.

Section ECFacts.

Context {F : Type} {A : Arith F}.
Local Open Scope arith_scope.

Variable pick : list nat -> nat -> nat -> nat * nat.

Hypothesis fmul_comm : forall x y : F, x [*] y = y [*] x.

Lemma dot_comm (xs ys : list F) : dot xs ys = dot ys xs.
Proof.
  unfold dot. f_equal. revert ys.
  induction xs as [|x xs IH]; intros [|y ys]; try reflexivity.
  cbn [combine map fst snd]. now rewrite IH, fmul_comm.
Qed.

Lemma cov_entry_sym (X : ndarray F) (v w : nat) : cov_entry X v w = cov_entry X w v.
Proof. unfold cov_entry. now rewrite dot_comm. Qed.

(** Where multiplication commutes, the three quotients of the source are
    the closed form at the cyclic permutations of [(0, 1, 2)]. *)
Lemma tc_covar_cyclic_comm (ver : numpy_release) (X : ndarray F) :
  ndim X = 2 -> shape_at X 1 = 3 -> cov_transposes ver X = true ->
  tc_covar ver X =
  Ok (np_array [tc_closed_form (cov_entry X) 0 1 2;
                tc_closed_form (cov_entry X) 1 2 0;
                tc_closed_form (cov_entry X) 2 0 1]).
Proof.
  intros H2 H3 Ht. rewrite (tc_covar_transposed ver X H2 H3 Ht).
  cbv zeta. unfold tc_closed_form.
  rewrite (cov_entry_sym X 1 0), (cov_entry_sym X 2 0), (cov_entry_sym X 2 1).
  now rewrite (fmul_comm (cov_entry X 1 2) (cov_entry X 0 1)).
Qed.

Lemma ec_entry_cov_matrix (X : ndarray F) (i j k l : nat) :
  i < shape_at X 1 -> j < shape_at X 1 -> k < shape_at X 1 -> l < shape_at X 1 ->
  ec_entry (cov_matrix X) i j (k, l)
  = Ok (cov_entry X i j [-] cov_entry X i k [*] cov_entry X j l [/] cov_entry X k l).
Proof.
  intros Hi Hj Hk Hl. unfold ec_entry. cbn [fst snd].
  now rewrite !getitem2_cov_matrix by assumption.
Qed.

Lemma valid_helpers_bounds (g : list nat) (i j k l : nat) :
  valid_helpers g i j (k, l) = true ->
  k < length g /\ l < length g
  /\ nth k g 0 <> nth i g 0 /\ nth l g 0 <> nth j g 0 /\ nth k g 0 <> nth l g 0.
Proof.
  unfold valid_helpers. rewrite !andb_true_iff, !negb_true_iff, !Nat.ltb_lt, !Nat.eqb_neq.
  tauto.
Qed.

Lemma ec_covar_three_systems (ver : numpy_release) (X : ndarray F) (g : list nat) :
  ndim X = 2 -> shape_at X 1 = 3 -> cov_transposes ver X = true ->
  length g = 3 -> NoDup g ->
  (forall i j, i < 3 -> j < 3 -> valid_helpers g i j (pick g i j) = true) ->
  ec_covar pick ver X g
  = Ok (mk_ndarray [3; 3] (map (ec_value pick X g) (list_prod (seq 0 3) (seq 0 3)))).
Proof.
  intros H2 H3 Ht Hg Hnd Hv. unfold ec_covar.
  rewrite H2, H3, Hg. cbn [Nat.eqb negb Nat.ltb Nat.leb].
  unfold distinct_groups. rewrite (nodup_fixed_point Nat.eq_dec Hnd), Hg.
  cbn [Nat.ltb Nat.leb].
  rewrite (np_cov_transposed ver X H2 Ht) by lia.
  assert (Hsq : squeeze (cov_matrix X) = cov_matrix X)
    by (unfold cov_matrix; rewrite squeeze_matrix; [reflexivity|lia]).
  rewrite Hsq. cbn [bind].
  rewrite (mapM_ok _ (ec_value pick X g)); [reflexivity|].
  intros [i j] Hin. apply in_prod_iff in Hin. rewrite !in_seq in Hin.
  cbn [fst snd]. unfold ec_value. cbn [fst snd].
  specialize (Hv i j ltac:(lia) ltac:(lia)).
  destruct (pick g i j) as [k l].
  apply valid_helpers_bounds in Hv.
  apply ec_entry_cov_matrix; lia.
Qed.

(** On the diagonal, with three systems in three groups, the EC formula is
    the TC formula whichever valid helpers are chosen. *)
Lemma ec_value_diagonal (X : ndarray F) (g : list nat) :
  length g = 3 ->
  (forall i, i < 3 -> valid_helpers g i i (pick g i i) = true) ->
  let c := cov_entry X in
  ec_value pick X g (0, 0) = c 0 0 [-] c 0 1 [*] c 0 2 [/] c 1 2
  /\ ec_value pick X g (1, 1) = c 1 1 [-] c 0 1 [*] c 1 2 [/] c 0 2
  /\ ec_value pick X g (2, 2) = c 2 2 [-] c 0 2 [*] c 1 2 [/] c 0 1.
Proof.
  intros Hg Hv c. subst c. unfold ec_value. cbn [fst snd].
  repeat split.
  - specialize (Hv 0 ltac:(lia)). destruct (pick g 0 0) as [k l].
    apply valid_helpers_bounds in Hv. rewrite Hg in Hv.
    destruct Hv as (Hk & Hl & Hki & Hli & Hkl).
    destruct k as [|[|[|k]]]; try lia; try congruence;
      destruct l as [|[|[|l]]]; try lia; try congruence.
    now rewrite (fmul_comm (cov_entry X 0 2)), (cov_entry_sym X 2 1).
  - specialize (Hv 1 ltac:(lia)). destruct (pick g 1 1) as [k l].
    apply valid_helpers_bounds in Hv. rewrite Hg in Hv.
    destruct Hv as (Hk & Hl & Hki & Hli & Hkl).
    destruct k as [|[|[|k]]]; try lia; try congruence;
      destruct l as [|[|[|l]]]; try lia; try congruence.
    + now rewrite (cov_entry_sym X 1 0).
    + now rewrite (fmul_comm (cov_entry X 1 2)), (cov_entry_sym X 1 0),
        (cov_entry_sym X 2 0).
  - specialize (Hv 2 ltac:(lia)). destruct (pick g 2 2) as [k l].
    apply valid_helpers_bounds in Hv. rewrite Hg in Hv.
    destruct Hv as (Hk & Hl & Hki & Hli & Hkl).
    destruct k as [|[|[|k]]]; try lia; try congruence;
      destruct l as [|[|[|l]]]; try lia; try congruence.
    + now rewrite (cov_entry_sym X 2 0), (cov_entry_sym X 2 1).
    + now rewrite (fmul_comm (cov_entry X 2 1)), (cov_entry_sym X 2 0),
        (cov_entry_sym X 2 1), (cov_entry_sym X 1 0).
Qed.

Lemma ec_covar_diagonal (ver : numpy_release) (X : ndarray F) (g : list nat) :
  ndim X = 2 -> shape_at X 1 = 3 -> cov_transposes ver X = true ->
  length g = 3 -> NoDup g ->
  (forall i j, i < 3 -> j < 3 -> valid_helpers g i j (pick g i j) = true) ->
  exists ecov evar,
    ec_covar pick ver X g = Ok ecov
    /\ shape ecov = [3; 3]
    /\ tc_covar ver X = Ok evar
    /\ shape evar = [3]
    /\ forall i, i < 3 -> getitem2 ecov i i = Ok (nth i (data evar) f0).
Proof.
  intros H2 H3 Ht Hg Hnd Hv.
  rewrite (ec_covar_three_systems ver X g H2 H3 Ht Hg Hnd Hv).
  rewrite (tc_covar_transposed ver X H2 H3 Ht).
  do 2 eexists. repeat split.
  intros i Hi.
  destruct (ec_value_diagonal X g Hg (fun i Hi => Hv i i Hi Hi)) as (E0 & E1 & E2).
  destruct i as [|[|[|i]]]; [| | |lia]; unfold getitem2;
    cbn [shape data Nat.ltb Nat.leb negb list_prod seq map app nth Nat.mul Nat.add
         np_array];
    [rewrite E0|rewrite E1|rewrite E2]; reflexivity.
Qed.

End ECFacts.

Lemma SFmul_comm (x y : binary64) : fmul x y = fmul y x.
Proof.
  destruct x as [sx|sx| |sx mx ex], y as [sy|sy| |sy my ey];
    cbn [fmul Arith_binary64]; unfold SFmul;
    try reflexivity; rewrite ?(xorb_comm sy sx); try reflexivity.
  now rewrite (Pos.mul_comm my mx), (Z.add_comm ey ex).
Qed.

(** C6. For a valid 3-system input, [ec_covar] with all-singleton groups
    (three systems, three distinct labels), whichever valid helper pairs it
    picks, returns a 3 x 3 matrix whose diagonal is, entry for entry, the
    vector [tc_covar] returns on the same input: on binary64 the two are
    equal floats. *)
Theorem ec_covar_singleton_diagonal
    (pick : list nat -> nat -> nat -> nat * nat)
    (ver : numpy_release) (X : ndarray binary64) (corr_sets : list nat) :
  ndim X = 2 -> shape_at X 1 = 3 -> 2 <= shape_at X 0 ->
  length corr_sets = 3 -> NoDup corr_sets ->
  (forall i j, i < 3 -> j < 3 ->
     valid_helpers corr_sets i j (pick corr_sets i j) = true) ->
  exists ecov evar,
    ec_covar pick ver X corr_sets = Ok ecov
    /\ shape ecov = [3; 3]
    /\ tc_covar ver X = Ok evar
    /\ shape evar = [3]
    /\ forall i, i < 3 -> getitem2 ecov i i = Ok (nth i (data evar) f0).
Proof.
  intros H2 H3 HN Hg Hnd Hv.
  apply (ec_covar_diagonal pick SFmul_comm); try assumption.
  apply cov_transposes_true; [assumption|left; lia].
Qed.

(** An instance, with the lowest-index helpers and the groups [0, 1, 2]. *)
Lemma ec_covar_singleton_diagonal_witness :
  exists ecov evar,
    ec_covar pick_lowest numpy_pre_2_2 (frows obs4) [0; 1; 2] = Ok ecov
    /\ shape ecov = [3; 3]
    /\ tc_covar numpy_pre_2_2 (frows obs4) = Ok evar
    /\ shape evar = [3]
    /\ forall i, i < 3 -> getitem2 ecov i i = Ok (nth i (data evar) f0).
Proof.
  apply (ec_covar_singleton_diagonal pick_lowest numpy_pre_2_2 (frows obs4) [0; 1; 2]);
    try reflexivity.
  - vm_compute. lia.
  - repeat constructor; cbn; intuition discriminate.
  - intros i j Hi Hj.
    destruct i as [|[|[|i]]]; [| | |lia];
      (destruct j as [|[|[|j]]]; [| | |lia]); reflexivity.
Defined.

(** ** The batched driver *)

Section Batched.

Context {F : Type} {A : Arith F}.

Variable pick : list nat -> nat -> nat -> nat * nat.

Lemma length_mapM {B C : Type} (f : B -> result C) (l : list B) (cs : list C) :
  mapM f l = Ok cs -> length cs = length l.
Proof.
  rewrite mapM_Forall2. intros H. symmetry. exact (Forall2_length H).
Qed.

Lemma ec_covar_shape (ver : numpy_release) (X r : ndarray F) (g : list nat) :
  ec_covar pick ver X g = Ok r ->
  shape r = [shape_at X 1; shape_at X 1]
  /\ length (data r) = shape_at X 1 * shape_at X 1.
Proof.
  unfold ec_covar.
  destruct (negb (ndim X =? 2)); [discriminate|].
  destruct (shape_at X 1 <? 3); [discriminate|].
  destruct (negb (length g =? shape_at X 1)); [discriminate|].
  destruct (distinct_groups g <? 3); [discriminate|].
  destruct (np_cov ver X) as [covar|e]; [|discriminate]. cbn [bind].
  destruct (mapM _ _) as [entries|e] eqn:E; [|discriminate]. cbn [bind].
  intros R. injection R as <-. cbn [shape data]. split; [reflexivity|].
  apply length_mapM in E. now rewrite E, length_prod, !length_seq.
Qed.

Lemma map_nth_seq {B : Type} (l : list B) (d : B) :
  map (fun p => nth p l d) (seq 0 (length l)) = l.
Proof.
  induction l as [|x l IH]; [reflexivity|].
  cbn [length seq map nth]. f_equal. rewrite <- seq_shift, map_map. exact IH.
Qed.

Lemma nth_flat_map_list {B C : Type} (g : nat -> C -> B) (l : list C) (d : B)
    (dc : C) (n i j s : nat) :
  i < n -> j < length l ->
  nth (i * length l + j) (flat_map (fun v => map (g v) l) (seq s n)) d
  = g (s + i) (nth j l dc).
Proof.
  revert s i. induction n as [|n IH]; intros s i Hi Hj; [lia|].
  cbn [seq flat_map]. destruct i as [|i].
  - rewrite app_nth1 by (rewrite length_map; lia).
    cbn [Nat.mul Nat.add]. rewrite Nat.add_0_r.
    rewrite nth_indep with (d' := g s dc) by (rewrite length_map; lia).
    now rewrite (map_nth (g s) l dc j).
  - rewrite app_nth2 by (rewrite length_map; lia).
    rewrite length_map.
    replace (S i * length l + j - length l) with (i * length l + j) by lia.
    rewrite IH by lia. f_equal. lia.
Qed.

(** Each slice of the result of the driver is the result of the EC solver on
    the matching slice of the input. *)
Lemma mapM_raise {B C : Type} (f : B -> result C) (l : list B) (b : B) (err : exn) :
  In b l -> f b = Raise err -> exists err', mapM f l = Raise err'.
Proof.
  induction l as [|a l IH]; intros Hin Hb; [destruct Hin|].
  cbn [mapM]. destruct Hin as [->|Hin].
  - rewrite Hb. cbn [bind]. eauto.
  - destruct (f a) as [c|e0]; cbn [bind]; [|eauto].
    destruct (IH Hin Hb) as [err' E0]. rewrite E0. cbn [bind]. eauto.
Qed.

Lemma mapM_ext {B C : Type} (f g : B -> result C) (l : list B) :
  (forall b, f b = g b) -> mapM f l = mapM g l.
Proof.
  intros H. induction l as [|b l IH]; [reflexivity|].
  cbn [mapM]. now rewrite H, IH.
Qed.

Lemma length_flat_map_list {B C : Type} (g : nat -> C -> B) (l : list C) (s n : nat) :
  length (flat_map (fun v => map (g v) l) (seq s n)) = n * length l.
Proof.
  revert s. induction n as [|n IH]; intros s; [reflexivity|].
  cbn [seq flat_map]. rewrite length_app, length_map, IH. lia.
Qed.

(** C7. The batched driver.  For an input of shape [(N, M, ...extra)], with
    [E] positions along the extra axes, slice [e] being the [N x M] array of
    the items [X[n, m, e]]:
    - the driver refuses, with a [ValueError], fewer than 3 systems, a
      grouping that has not one label per system, or fewer than 3 distinct
      groups, whatever the extra axes;
    - otherwise, when [ec_covar] returns [rs e] on each slice [e] alone, the
      driver returns an array of shape [(M, M, ...extra)] with [M * M * E]
      items whose item [(i, j, e)] is item [(i, j)] of [rs e]: every slice
      of the result is the result of the scalar solver on that slice of the
      input, and on nothing else;
    - and when [ec_covar] raises on a slice, the driver raises. *)
Theorem ec_covar_multi_slices (ver : numpy_release) (X : ndarray F)
    (corr_sets : list nat) (N M : nat) (extra : list nat) :
  shape X = N :: M :: extra ->
  let E := size extra in
  let Xe := fun e => mk_ndarray [N; M]
                       (map (fun p => nth (p * E + e) (data X) f0) (seq 0 (N * M))) in
  (M < 3 \/ length corr_sets <> M \/ distinct_groups corr_sets < 3 ->
     exists msg, ec_covar_multi pick ver X corr_sets = Raise (ValueError msg))
  /\ (3 <= M -> length corr_sets = M -> 3 <= distinct_groups corr_sets ->
      (forall rs : nat -> ndarray F,
         (forall e, e < E -> ec_covar pick ver (Xe e) corr_sets = Ok (rs e)) ->
         exists R,
           ec_covar_multi pick ver X corr_sets = Ok R
           /\ shape R = M :: M :: extra
           /\ length (data R) = M * M * E
           /\ forall i j e, i < M -> j < M -> e < E ->
                getitem2 (rs e) i j = Ok (nth ((i * M + j) * E + e) (data R) f0))
      /\ (forall e err, e < E -> ec_covar pick ver (Xe e) corr_sets = Raise err ->
            exists err', ec_covar_multi pick ver X corr_sets = Raise err')).
Proof.
  intros HX E Xe.
  assert (Hsl : forall e, slice X e = Xe e).
  { intros e. unfold slice. now rewrite HX. }
  split.
  - intros Hbad. unfold ec_covar_multi. rewrite HX.
    destruct (Nat.ltb_spec M 3) as [L1|L1]; [eauto|].
    destruct (Nat.eqb_spec (length corr_sets) M) as [L2|L2]; cbn [negb]; [|eauto].
    destruct (Nat.ltb_spec (distinct_groups corr_sets) 3) as [L3|L3]; [eauto|].
    exfalso. lia.
  - intros HM Hlen Hgr.
    assert (Hrun : ec_covar_multi pick ver X corr_sets
                   = (rs <- mapM (fun e => ec_covar pick ver (Xe e) corr_sets)
                                 (seq 0 E) ;;
                      Ok (mk_ndarray (M :: M :: extra)
                            (flat_map (fun p => map (fun r => nth p (data r) f0) rs)
                                      (seq 0 (M * M)))))).
    { unfold ec_covar_multi. rewrite HX.
      destruct (Nat.ltb_spec M 3) as [L1|L1]; [lia|].
      destruct (Nat.eqb_spec (length corr_sets) M) as [L2|L2]; cbn [negb]; [|lia].
      destruct (Nat.ltb_spec (distinct_groups corr_sets) 3) as [L3|L3]; [lia|].
      rewrite (mapM_ext _ (fun e => ec_covar pick ver (Xe e) corr_sets))
        by (intros e; now rewrite Hsl).
      reflexivity. }
    split.
    + intros rs Hrs. rewrite Hrun.
      rewrite (mapM_ok _ rs) by (intros e He; apply in_seq in He; apply Hrs; lia).
      cbn [bind]. eexists. split; [reflexivity|]. split; [reflexivity|].
      cbn [data]. split.
      * now rewrite length_flat_map_list, length_map, length_seq.
      * intros i j e Hi Hj He.
        destruct (ec_covar_shape ver (Xe e) (rs e) corr_sets (Hrs e He)) as [Hsh _].
        change (shape_at (Xe e) 1) with M in Hsh.
        unfold getitem2. rewrite Hsh.
        rewrite (proj2 (Nat.ltb_lt _ _) Hi), (proj2 (Nat.ltb_lt _ _) Hj). cbn [negb].
        f_equal.
        replace E with (length (map rs (seq 0 E))) at 1
          by now rewrite length_map, length_seq.
        rewrite (nth_flat_map_list (fun p r => nth p (data r) f0) (map rs (seq 0 E)) f0
                                   (rs 0))
          by (try rewrite length_map, length_seq; nia).
        cbn [Nat.add]. now rewrite (map_nth rs), seq_nth by assumption.
    + intros e err He Herr. rewrite Hrun.
      destruct (mapM_raise (fun e => ec_covar pick ver (Xe e) corr_sets) (seq 0 E) e err)
        as [err' Herr']; [apply in_seq; lia|assumption|].
      rewrite Herr'. cbn [bind]. eauto.
Qed.

End Batched.

(** An instance: two pixels, the groups [1, 2, 3] of the example notebooks. *)
Lemma ec_covar_multi_slices_witness :
  let Xe := fun e => mk_ndarray [4; 3]
                       (map (fun p => nth (p * size [2] + e) (data obs_4x3x2) f0)
                            (seq 0 (4 * 3))) in
  (3 < 3 \/ length [1; 2; 3] <> 3 \/ distinct_groups [1; 2; 3] < 3 ->
     exists msg,
       ec_covar_multi pick_lowest numpy_pre_2_2 obs_4x3x2 [1; 2; 3]
       = Raise (ValueError msg))
  /\ (3 <= 3 -> length [1; 2; 3] = 3 -> 3 <= distinct_groups [1; 2; 3] ->
      (forall rs : nat -> ndarray binary64,
         (forall e, e < size [2] ->
            ec_covar pick_lowest numpy_pre_2_2 (Xe e) [1; 2; 3] = Ok (rs e)) ->
         exists R,
           ec_covar_multi pick_lowest numpy_pre_2_2 obs_4x3x2 [1; 2; 3] = Ok R
           /\ shape R = [3; 3; 2]
           /\ length (data R) = 3 * 3 * size [2]
           /\ forall i j e, i < 3 -> j < 3 -> e < size [2] ->
                getitem2 (rs e) i j = Ok (nth ((i * 3 + j) * size [2] + e) (data R) f0))
      /\ (forall e err, e < size [2] ->
            ec_covar pick_lowest numpy_pre_2_2 (Xe e) [1; 2; 3] = Raise err ->
            exists err',
              ec_covar_multi pick_lowest numpy_pre_2_2 obs_4x3x2 [1; 2; 3]
              = Raise err')).
Proof.
  apply (ec_covar_multi_slices pick_lowest numpy_pre_2_2 obs_4x3x2 [1; 2; 3] 4 3 [2]).
  reflexivity.
Defined.

(** The driver on two pixels: the solver returns on both slices, so the
    driver returns; and the boundary checks do not wait for a slice (an
    empty extra axis, two systems in one group). *)
Example ec_covar_multi_runs :
  (exists R, ec_covar_multi pick_lowest numpy_pre_2_2 obs_4x3x2 [1; 2; 3] = Ok R
             /\ shape R = [3; 3; 2] /\ length (data R) = 18)
  /\ ec_covar_multi pick_lowest numpy_pre_2_2
       (mk_ndarray [4; 2; 0] ([] : list binary64)) [1; 1]
     = Raise (ValueError "X must have a system axis of length 3 or more").
Proof.
  split; [|reflexivity].
  eexists. split; [vm_compute; reflexivity|]. split; reflexivity.
Qed.

(** ** The covariance matrix and the closed form on float64 *)

(** C3 (as amended).  The covariance builder.  In exact arithmetic, for an
    [N x M] input with [N >= 2] rows and [M >= 2] columns,
    [np.cov(X, rowvar=False)] returns the [M x M] matrix whose entry
    [(i, j)] is [sum_n (X[n,i] - mean_i) * (X[n,j] - mean_j) / (N - 1)], and
    its diagonal holds the sample variances of the columns (on float64 the
    entries are these values up to rounding).  The matrix is symmetric, and
    on float64 it is so exactly: for such an input [np.cov] returns an
    [M x M] matrix whose items [(i, j)] and [(j, i)] are the same float. *)
Theorem np_cov_sample_covariance :
  (forall (ver : numpy_release) (X : ndarray Qc),
     ndim X = 2 -> 2 <= shape_at X 0 -> 2 <= shape_at X 1 ->
     exists covar,
       np_cov ver X = Ok covar
       /\ shape covar = [shape_at X 1; shape_at X 1]
       /\ (forall i j, i < shape_at X 1 -> j < shape_at X 1 ->
             getitem2 covar i j = Ok (Exact.sample_cov X i j)
             /\ getitem2 covar i j = getitem2 covar j i)
       /\ (forall i, i < shape_at X 1 ->
             getitem2 covar i i = Ok (Exact.sample_var X i)))
  /\ (forall (ver : numpy_release) (X : ndarray binary64),
        ndim X = 2 -> 2 <= shape_at X 0 -> 2 <= shape_at X 1 ->
        exists covar,
          np_cov ver X = Ok covar
          /\ shape covar = [shape_at X 1; shape_at X 1]
          /\ forall i j, i < shape_at X 1 -> j < shape_at X 1 ->
               exists x, getitem2 covar i j = Ok x /\ getitem2 covar j i = Ok x).
Proof.
  split.
  - exact np_cov_sample_covariance_exact.
  - intros ver X H2 HN HM.
    assert (Ht : cov_transposes ver X = true)
      by (apply cov_transposes_true; [assumption|left; lia]).
    exists (cov_matrix X). split; [|split; [reflexivity|]].
    + rewrite (np_cov_transposed ver X H2 Ht) by lia.
      unfold cov_matrix. now rewrite squeeze_matrix.
    + intros i j Hi Hj. exists (cov_entry X i j).
      rewrite !getitem2_cov_matrix by assumption. split; [reflexivity|].
      f_equal. apply cov_entry_sym. exact SFmul_comm.
Qed.

(** Instances on four observations of three systems. *)
Lemma np_cov_sample_covariance_witness :
  (exists covar,
     np_cov numpy_pre_2_2 (zrows obs4) = Ok covar
     /\ shape covar = [3; 3]
     /\ (forall i j, i < 3 -> j < 3 ->
           getitem2 covar i j = Ok (Exact.sample_cov (zrows obs4) i j)
           /\ getitem2 covar i j = getitem2 covar j i)
     /\ (forall i, i < 3 ->
           getitem2 covar i i = Ok (Exact.sample_var (zrows obs4) i)))
  /\ (exists covar,
        np_cov numpy_pre_2_2 (frows obs4) = Ok covar
        /\ shape covar = [3; 3]
        /\ forall i j, i < 3 -> j < 3 ->
             exists x, getitem2 covar i j = Ok x /\ getitem2 covar j i = Ok x).
Proof.
  split.
  - apply (proj1 np_cov_sample_covariance numpy_pre_2_2 (zrows obs4));
      [reflexivity | vm_compute; lia | vm_compute; lia].
  - apply (proj2 np_cov_sample_covariance numpy_pre_2_2 (frows obs4));
      [reflexivity | vm_compute; lia | vm_compute; lia].
Defined.

(** The claim of C3 fails on float64 as it stands: for the four observations
    [obs4] the exact sample covariance of systems 0 and 1 is [-13/12], which
    is no float; [np.cov] returns the float [-3.25 * fl(1/3)], whose value is
    another number.  (The sums before the last product are exact here in
    every order of accumulation.) *)
Lemma np_cov_rounds :
  exists covar x q,
    np_cov numpy_pre_2_2 (frows obs4) = Ok covar
    /\ getitem2 covar 0 1 = Ok x
    /\ b64_to_Q x = Some q
    /\ (this (Exact.sample_cov (zrows obs4) 0 1) == -13 # 12)%Q
    /\ ~ (q == this (Exact.sample_cov (zrows obs4) 0 1))%Q.
Proof.
  do 3 eexists. split; [vm_compute; reflexivity|].
  split; [vm_compute; reflexivity|]. split; [reflexivity|].
  split; [vm_compute; reflexivity|].
  intros H. vm_compute in H. discriminate.
Qed.

Section OfCovar.

Context {F : Type} {A : Arith F}.
Local Open Scope arith_scope.

(** What [tc_covar] computes from the matrix [np.cov] returned, whatever
    floats it holds. *)
Lemma tc_covar_of_covar (ver : numpy_release) (X covar : ndarray F) :
  ndim X = 2 -> shape_at X 1 = 3 -> np_cov ver X = Ok covar -> shape covar = [3; 3] ->
  let c := fun i j => nth (i * 3 + j) (data covar) f0 in
  tc_covar ver X
  = Ok (mk_ndarray [3] [c 0 0 [-] c 0 1 [*] c 0 2 [/] c 1 2;
                        c 1 1 [-] c 0 1 [*] c 1 2 [/] c 0 2;
                        c 2 2 [-] c 0 2 [*] c 1 2 [/] c 0 1]).
Proof.
  intros H2 H3 Hcov Hs c. unfold tc_covar. rewrite H2, H3. cbn [Nat.eqb negb].
  rewrite Hcov. cbn [bind]. unfold tc_entry. cbn [fst snd].
  rewrite !(item_3x3 covar) by (assumption || lia). reflexivity.
Qed.

End OfCovar.

(** C1. On float64 (IEEE-754 binary64): for every 2-dimensional input with
    exactly 3 columns for which [np.cov] returns a 3 x 3 matrix [covar],
    whatever floats it holds, [tc_covar] raises nothing and returns the
    vector of length 3 with the entries
    [covar[0,0] - covar[0,1] * covar[0,2] / covar[1,2]],
    [covar[1,1] - covar[0,1] * covar[1,2] / covar[0,2]],
    [covar[2,2] - covar[0,2] * covar[1,2] / covar[0,1]], each evaluated in
    float64 in the order written; bit for bit, entry [i] is the closed form
    [sigma_ii - sigma_ij * sigma_ik / sigma_jk] on [covar] for [(i, j, k)]
    the cyclic permutations of [(0, 1, 2)], the denominator being the
    covariance of the other two systems.  (With a zero denominator the same
    expression is not finite: see C4.) *)
Theorem tc_covar_closed_form (ver : numpy_release) (X covar : ndarray binary64) :
  ndim X = 2 -> shape_at X 1 = 3 ->
  np_cov ver X = Ok covar -> shape covar = [3; 3] ->
  let c := fun i j => nth (i * 3 + j) (data covar) f0 in
  exists evar,
    tc_covar ver X = Ok evar
    /\ shape evar = [3]
    /\ data evar = [fsub (c 0 0) (fdiv (fmul (c 0 1) (c 0 2)) (c 1 2));
                    fsub (c 1 1) (fdiv (fmul (c 0 1) (c 1 2)) (c 0 2));
                    fsub (c 2 2) (fdiv (fmul (c 0 2) (c 1 2)) (c 0 1))]
    /\ data evar = [tc_closed_form c 0 1 2; tc_closed_form c 1 2 0;
                    tc_closed_form c 2 0 1].
Proof.
  intros H2 H3 Hcov Hs c.
  eexists. split; [exact (tc_covar_of_covar ver X covar H2 H3 Hcov Hs)|].
  split; [reflexivity|]. split; [reflexivity|].
  cbn [data]. unfold tc_closed_form.
  assert (E : covar = cov_matrix X).
  { apply (np_cov_square ver); try assumption; rewrite H3; [lia|assumption]. }
  assert (S : forall i j, i < 3 -> j < 3 ->
            nth (i * 3 + j) (data covar) f0 = cov_entry X i j).
  { intros i j Hi Hj. rewrite E. unfold cov_matrix. cbn [data].
    rewrite H3. now rewrite nth_flat_map_seq. }
  subst c. cbv beta.
  rewrite (S 0 0), (S 0 1), (S 0 2), (S 1 0), (S 1 1), (S 1 2), (S 2 0), (S 2 1), (S 2 2)
    by lia.
  rewrite (cov_entry_sym SFmul_comm X 1 0), (cov_entry_sym SFmul_comm X 2 0),
          (cov_entry_sym SFmul_comm X 2 1).
  now rewrite (SFmul_comm (cov_entry X 1 2) (cov_entry X 0 1)).
Qed.

(** An instance: the four observations [obs4]. *)
Lemma tc_covar_closed_form_witness :
  let c := fun i j => nth (i * 3 + j) (data (cov_matrix (frows obs4))) f0 in
  exists evar,
    tc_covar numpy_pre_2_2 (frows obs4) = Ok evar
    /\ shape evar = [3]
    /\ data evar = [fsub (c 0 0) (fdiv (fmul (c 0 1) (c 0 2)) (c 1 2));
                    fsub (c 1 1) (fdiv (fmul (c 0 1) (c 1 2)) (c 0 2));
                    fsub (c 2 2) (fdiv (fmul (c 0 2) (c 1 2)) (c 0 1))]
    /\ data evar = [tc_closed_form c 0 1 2; tc_closed_form c 1 2 0;
                    tc_closed_form c 2 0 1].
Proof.
  apply (tc_covar_closed_form numpy_pre_2_2 (frows obs4) (cov_matrix (frows obs4)));
    reflexivity.
Defined.

(** C5. Negative estimates are returned as they are.  On float64, for
    every 2-dimensional input with exactly 3 columns for which [np.cov]
    returns a 3 x 3 matrix [covar]: if the value of the expression of entry
    [k], [covar[i,i] - covar[i,j] * covar[i,k] / covar[j,k]] evaluated in
    float64, is a finite negative number, then [tc_covar] raises nothing and
    entry [k] of the vector it returns is exactly that float: negative, not
    a zero, nothing put in its place.  (Its denominator is then not a
    zero.) *)
Theorem tc_covar_negative_estimate (ver : numpy_release) (X covar : ndarray binary64)
    (k : nat) :
  ndim X = 2 -> shape_at X 1 = 3 -> k < 3 ->
  np_cov ver X = Ok covar -> shape covar = [3; 3] ->
  let c := fun i j => nth (i * 3 + j) (data covar) f0 in
  let q := nth k [fsub (c 0 0) (fdiv (fmul (c 0 1) (c 0 2)) (c 1 2));
                  fsub (c 1 1) (fdiv (fmul (c 0 1) (c 1 2)) (c 0 2));
                  fsub (c 2 2) (fdiv (fmul (c 0 2) (c 1 2)) (c 0 1))] f0 in
  is_negative q = true ->
  exists evar,
    tc_covar ver X = Ok evar
    /\ shape evar = [3]
    /\ nth k (data evar) f0 = q
    /\ is_negative (nth k (data evar) f0) = true
    /\ is_zero (nth k (data evar) f0) = false
    /\ is_zero (c (fst (denominator_of k)) (snd (denominator_of k))) = false.
Proof.
  intros H2 H3 Hk Hcov Hs c q Hq.
  eexists. split; [exact (tc_covar_of_covar ver X covar H2 H3 Hcov Hs)|].
  split; [reflexivity|].
  enough (G : q = q /\ is_negative q = true /\ is_zero q = false
              /\ is_zero (c (fst (denominator_of k)) (snd (denominator_of k))) = false)
    by exact G.
  split; [reflexivity|]. split; [exact Hq|]. split.
  - destruct q as [s|s| |[|] m e]; try discriminate. reflexivity.
  - destruct (is_zero (c (fst (denominator_of k)) (snd (denominator_of k)))) eqn:Z;
      [|reflexivity].
    assert (NF : is_finite q = false).
    { unfold q. destruct k as [|[|[|k]]]; [| | |lia];
        cbn [nth denominator_of fst snd] in *;
        apply IEEE.sub_not_finite_r;
        match goal with
        | |- is_finite (fdiv _ ?d) = false =>
            destruct d; try discriminate; apply IEEE.div_by_zero_not_finite
        end. }
    destruct q as [s|s| |[|] m e]; discriminate.
Qed.

(** An instance: the estimate for system 2 of [obs4] is negative (about
    [-3.38]; the exact value is [-44/13]). *)
Lemma tc_covar_negative_estimate_witness :
  let c := fun i j => nth (i * 3 + j) (data (cov_matrix (frows obs4))) f0 in
  let q := nth 2 [fsub (c 0 0) (fdiv (fmul (c 0 1) (c 0 2)) (c 1 2));
                  fsub (c 1 1) (fdiv (fmul (c 0 1) (c 1 2)) (c 0 2));
                  fsub (c 2 2) (fdiv (fmul (c 0 2) (c 1 2)) (c 0 1))] f0 in
  exists evar,
    tc_covar numpy_pre_2_2 (frows obs4) = Ok evar
    /\ shape evar = [3]
    /\ nth 2 (data evar) f0 = q
    /\ is_negative (nth 2 (data evar) f0) = true
    /\ is_zero (nth 2 (data evar) f0) = false
    /\ is_zero (c (fst (denominator_of 2)) (snd (denominator_of 2))) = false.
Proof.
  apply (tc_covar_negative_estimate numpy_pre_2_2 (frows obs4)
           (cov_matrix (frows obs4)) 2);
    try reflexivity. lia.
Defined.

(** * Further properties of [tc_covar] *)

(** X1. On binary64 every 2-D, 3-column input that [np.cov] transposes (any
    number of rows but one on NumPy before 2.2, any at all from 2.2 on; entries
    finite or not) makes [tc_covar] return: no exception, and the three
    IEEE quotients as they come, unclamped; they are the closed form at the
    cyclic permutations of [(0, 1, 2)]. *)
Theorem tc_covar_binary64_returns (ver : numpy_release) (X : ndarray binary64) :
  ndim X = 2 -> shape_at X 1 = 3 -> shape_at X 0 <> 1 \/ ver = numpy_2_2 ->
  tc_covar ver X =
  Ok (np_array
        [fsub (cov_entry X 0 0) (fdiv (fmul (cov_entry X 0 1) (cov_entry X 0 2))
                                      (cov_entry X 1 2));
         fsub (cov_entry X 1 1) (fdiv (fmul (cov_entry X 0 1) (cov_entry X 1 2))
                                      (cov_entry X 0 2));
         fsub (cov_entry X 2 2) (fdiv (fmul (cov_entry X 0 2) (cov_entry X 1 2))
                                      (cov_entry X 0 1))])
  /\ tc_covar ver X =
     Ok (np_array [tc_closed_form (cov_entry X) 0 1 2;
                   tc_closed_form (cov_entry X) 1 2 0;
                   tc_closed_form (cov_entry X) 2 0 1]).
Proof.
  intros H2 H3 Ht.
  assert (T : cov_transposes ver X = true) by now apply cov_transposes_true.
  split.
  - now apply tc_covar_transposed.
  - now apply (tc_covar_cyclic_comm SFmul_comm).
Qed.

Lemma tc_covar_binary64_returns_witness :
  tc_covar numpy_pre_2_2 (frows obs4) =
  Ok (np_array
        [fsub (cov_entry (frows obs4) 0 0)
              (fdiv (fmul (cov_entry (frows obs4) 0 1) (cov_entry (frows obs4) 0 2))
                    (cov_entry (frows obs4) 1 2));
         fsub (cov_entry (frows obs4) 1 1)
              (fdiv (fmul (cov_entry (frows obs4) 0 1) (cov_entry (frows obs4) 1 2))
                    (cov_entry (frows obs4) 0 2));
         fsub (cov_entry (frows obs4) 2 2)
              (fdiv (fmul (cov_entry (frows obs4) 0 2) (cov_entry (frows obs4) 1 2))
                    (cov_entry (frows obs4) 0 1))])
  /\ tc_covar numpy_pre_2_2 (frows obs4) =
     Ok (np_array [tc_closed_form (cov_entry (frows obs4)) 0 1 2;
                   tc_closed_form (cov_entry (frows obs4)) 1 2 0;
                   tc_closed_form (cov_entry (frows obs4)) 2 0 1]).
Proof.
  apply (tc_covar_binary64_returns numpy_pre_2_2 (frows obs4));
    [reflexivity | reflexivity | left; vm_compute; lia].
Defined.

(** X2. On binary64 the covariance matrix is symmetric bit for bit. *)
Theorem cov_entry_symmetric_binary64 (X : ndarray binary64) (i j : nat) :
  cov_entry X i j = cov_entry X j i.
Proof. apply cov_entry_sym. exact SFmul_comm. Qed.

(** X3. With no row at all, every NumPy release returns three NaN. *)
Theorem tc_covar_no_rows (ver : numpy_release) (X : ndarray binary64) :
  ndim X = 2 -> shape_at X 1 = 3 -> shape_at X 0 = 0 ->
  tc_covar ver X = Ok (np_array [S754_nan; S754_nan; S754_nan]).
Proof.
  intros H2 H3 H0.
  rewrite tc_covar_transposed;
    [|assumption..|apply cov_transposes_true; [assumption|left; lia]].
  assert (NF : forall v w, is_finite (cov_entry X v w) = false).
  { intros v w. unfold cov_entry. rewrite H0.
    change (0 - 1) with 0. rewrite IEEE.one_over_zero.
    apply IEEE.mul_inf_not_finite. }
  cbv zeta. now rewrite !IEEE.quotient_of_non_finite by apply NF.
Qed.

Lemma tc_covar_no_rows_witness :
  tc_covar numpy_pre_2_2 (mk_ndarray [0; 3] ([] : list binary64))
  = Ok (np_array [S754_nan; S754_nan; S754_nan]).
Proof.
  apply (tc_covar_no_rows numpy_pre_2_2 (mk_ndarray [0; 3] [])); reflexivity.
Defined.

(** X4. In exact arithmetic too, the diagonal of [ec_covar] with three singleton
    groups is the vector of [tc_covar], whichever valid helpers are picked. *)
Theorem ec_covar_singleton_diagonal_exact
    (pick : list nat -> nat -> nat -> nat * nat)
    (ver : numpy_release) (X : ndarray Qc) (corr_sets : list nat) :
  ndim X = 2 -> shape_at X 1 = 3 -> 2 <= shape_at X 0 ->
  length corr_sets = 3 -> NoDup corr_sets ->
  (forall i j, i < 3 -> j < 3 ->
     valid_helpers corr_sets i j (pick corr_sets i j) = true) ->
  exists ecov evar,
    ec_covar pick ver X corr_sets = Ok ecov
    /\ shape ecov = [3; 3]
    /\ tc_covar ver X = Ok evar
    /\ shape evar = [3]
    /\ forall i, i < 3 -> getitem2 ecov i i = Ok (nth i (data evar) f0).
Proof.
  intros H2 H3 HN Hg Hnd Hv.
  apply (ec_covar_diagonal (A := Arith_Qc) pick Qcmult_comm); try assumption.
  apply cov_transposes_true; [assumption|left; lia].
Qed.

Lemma ec_covar_singleton_diagonal_exact_witness :
  exists ecov evar,
    ec_covar pick_lowest numpy_2_2 (zrows obs4) [1; 2; 3] = Ok ecov
    /\ shape ecov = [3; 3]
    /\ tc_covar numpy_2_2 (zrows obs4) = Ok evar
    /\ shape evar = [3]
    /\ forall i, i < 3 -> getitem2 ecov i i = Ok (nth i (data evar) f0).
Proof.
  apply (ec_covar_singleton_diagonal_exact pick_lowest numpy_2_2 (zrows obs4) [1; 2; 3]);
    try reflexivity.
  - vm_compute. lia.
  - repeat constructor; cbn; intuition discriminate.
  - intros i j Hi Hj.
    destruct i as [|[|[|i]]]; [| | |lia];
      (destruct j as [|[|[|j]]]; [| | |lia]); reflexivity.
Defined.

(** ** The systems relabelled *)

Section Relabel.

Context {F : Type} {A : Arith F}.
Local Open Scope arith_scope.

Hypothesis fmul_comm : forall x y : F, x [*] y = y [*] x.

Lemma cov_entry_relabel (X X' : ndarray F) (p : nat -> nat) (v w : nat) :
  shape_at X' 0 = shape_at X 0 ->
  (forall n c, n < shape_at X 0 -> c < 3 -> item2 X' n c = item2 X n (p c)) ->
  v < 3 -> w < 3 ->
  cov_entry X' v w = cov_entry X (p v) (p w).
Proof.
  intros HN Hit Hv Hw.
  assert (C : forall c, c < 3 -> column X' c = column X (p c)).
  { intros c Hc. unfold column, cov_obs. rewrite HN.
    apply map_ext_in. intros n Hn. apply in_seq in Hn.
    apply (Hit n c); lia. }
  unfold cov_entry. now rewrite HN, !C.
Qed.

Lemma tc_covar_relabel (ver : numpy_release) (X X' : ndarray F) (p : nat -> nat) :
  ndim X = 2 -> shape X' = shape X -> shape_at X 1 = 3 ->
  shape_at X 0 <> 1 \/ ver = numpy_2_2 ->
  (forall c, c < 3 -> p c < 3) ->
  (forall c d, c < 3 -> d < 3 -> p c = p d -> c = d) ->
  (forall n c, n < shape_at X 0 -> c < 3 -> item2 X' n c = item2 X n (p c)) ->
  exists evar evar',
    tc_covar ver X = Ok evar
    /\ tc_covar ver X' = Ok evar'
    /\ shape evar = [3] /\ shape evar' = [3]
    /\ forall c, c < 3 -> nth c (data evar') f0 = nth (p c) (data evar) f0.
Proof.
  intros H2 Hs H3 Ht Hp Hinj Hit.
  assert (H2' : ndim X' = 2) by (unfold ndim; now rewrite Hs).
  assert (H3' : shape_at X' 1 = 3) by (unfold shape_at; now rewrite Hs).
  assert (HN : shape_at X' 0 = shape_at X 0) by (unfold shape_at; now rewrite Hs).
  assert (Ht' : shape_at X' 0 <> 1 \/ ver = numpy_2_2) by now rewrite HN.
  do 2 eexists.
  split; [apply tc_covar_transposed; auto using cov_transposes_true|].
  split; [apply tc_covar_transposed; auto using cov_transposes_true|].
  split; [reflexivity|]. split; [reflexivity|].
  cbv zeta.
  rewrite !(cov_entry_relabel X X' p) by (auto; lia).
  pose proof (Hp 0 ltac:(lia)) as B0. pose proof (Hp 1 ltac:(lia)) as B1.
  pose proof (Hp 2 ltac:(lia)) as B2.
  pose proof (Hinj 0 1 ltac:(lia) ltac:(lia)) as I01.
  pose proof (Hinj 0 2 ltac:(lia) ltac:(lia)) as I02.
  pose proof (Hinj 1 2 ltac:(lia) ltac:(lia)) as I12.
  set (s := cov_entry X).
  assert (S10 : s 1 0 = s 0 1) by (apply cov_entry_sym; exact fmul_comm).
  assert (S20 : s 2 0 = s 0 2) by (apply cov_entry_sym; exact fmul_comm).
  assert (S21 : s 2 1 = s 1 2) by (apply cov_entry_sym; exact fmul_comm).
  intros c Hc.
  destruct c as [|[|[|c]]]; [| | |lia]; cbn [np_array data nth];
    (destruct (p 0) as [|[|[|?]]]; [| | |lia]);
    (destruct (p 1) as [|[|[|?]]]; [| | |lia]);
    (destruct (p 2) as [|[|[|?]]]; [| | |lia]);
    try (exfalso; lia);
    cbn [nth];
    rewrite ?S10, ?S20, ?S21;
    rewrite ?(fmul_comm (s 0 2) (s 0 1)), ?(fmul_comm (s 1 2) (s 0 1)),
            ?(fmul_comm (s 1 2) (s 0 2));
    reflexivity.
Qed.

End Relabel.

(** X6. The labelling of the three systems does not matter.  In exact
    arithmetic, for a 2-dimensional input [X] with exactly 3 columns and
    [N >= 2] rows: if [X'] has the shape of [X] and holds its columns in
    another order ([X'[n, c] = X[n, p c]] for a permutation [p] of the three
    columns), then [tc_covar] returns on both, and entry [c] of the result
    for [X'] is entry [p c] of the result for [X].  (On float64 the two
    agree up to rounding only: the sums are accumulated in an order that
    depends on the memory layout.) *)
Theorem tc_covar_relabel_systems (ver : numpy_release) (X X' : ndarray Qc)
    (p : nat -> nat) :
  ndim X = 2 -> shape X' = shape X -> shape_at X 1 = 3 -> 2 <= shape_at X 0 ->
  (forall c, c < 3 -> p c < 3) ->
  (forall c d, c < 3 -> d < 3 -> p c = p d -> c = d) ->
  (forall n c, n < shape_at X 0 -> c < 3 -> item2 X' n c = item2 X n (p c)) ->
  exists evar evar',
    tc_covar ver X = Ok evar
    /\ tc_covar ver X' = Ok evar'
    /\ shape evar = [3] /\ shape evar' = [3]
    /\ forall c, c < 3 -> nth c (data evar') f0 = nth (p c) (data evar) f0.
Proof.
  intros H2 Hs H3 HN. apply (tc_covar_relabel (A := Arith_Qc) Qcmult_comm); try assumption.
  left. lia.
Qed.

Lemma tc_covar_relabel_systems_witness :
  exists evar evar',
    tc_covar numpy_pre_2_2 (zrows obs4) = Ok evar
    /\ tc_covar numpy_pre_2_2 (zrows obs4_relabelled) = Ok evar'
    /\ shape evar = [3] /\ shape evar' = [3]
    /\ forall c, c < 3 -> nth c (data evar') f0 = nth (swap01 c) (data evar) f0.
Proof.
  apply (tc_covar_relabel_systems numpy_pre_2_2 (zrows obs4) (zrows obs4_relabelled)
           swap01).
  - reflexivity.
  - reflexivity.
  - reflexivity.
  - vm_compute. lia.
  - intros c Hc. destruct c as [|[|[|c]]]; cbn [swap01]; lia.
  - intros c d Hc Hd. destruct c as [|[|[|c]]]; [| | |lia];
      (destruct d as [|[|[|d]]]; [| | |lia]); cbn [swap01]; lia.
  - intros n c Hn Hc. change (shape_at (zrows obs4) 0) with 4 in Hn.
    destruct n as [|[|[|[|n]]]]; [| | | |lia];
      (destruct c as [|[|[|c]]]; [| | |lia]); reflexivity.
Defined.

(** ** Units, noise, and the order of the observations *)

Module UnitProps.

Import Exact ExactProps.
Local Open Scope Qc_scope.

Lemma seq_cov_scal (N : nat) (b b' : Qc) (x y : nat -> Qc) :
  seq_cov N (fun n => b * x n) (fun n => b' * y n) = b * b' * seq_cov N x y.
Proof.
  unfold seq_cov, seq_mean. rewrite !bigsum_scal.
  rewrite (bigsum_ext N _
             (fun n => b * b' * ((x n - bigsum N x / count N)
                                 * (y n - bigsum N y / count N))))
    by (intros n _; unfold Qcdiv; ring).
  rewrite bigsum_scal. unfold Qcdiv. ring.
Qed.

Lemma seq_cov_zero_r (N : nat) (x : nat -> Qc) : seq_cov N x (fun _ => 0) = 0.
Proof.
  unfold seq_cov, seq_mean. rewrite bigsum_const.
  rewrite (bigsum_ext N _ (fun _ => 0)) by (intros n _; unfold Qcdiv; ring).
  rewrite bigsum_const. unfold Qcdiv. ring.
Qed.

Lemma fsum_cons (x : Qc) (l : list Qc) : fsum (x :: l) = x + fsum l.
Proof.
  change (x :: l) with ([x] ++ l). rewrite fsum_app. f_equal. unfold fsum. cbn. ring.
Qed.

(** An exact sum does not depend on the order of its terms. *)
Lemma fsum_Permutation (l l' : list Qc) : Permutation l l' -> fsum l = fsum l'.
Proof.
  induction 1 as [|x l l' _ IH|x y l|l l' l'' _ IH1 _ IH2].
  - reflexivity.
  - now rewrite !fsum_cons, IH.
  - rewrite !fsum_cons. ring.
  - now rewrite IH1.
Qed.

Lemma nth_concat_uniform {B : Type} (rows : list (list B)) (m n i : nat) (d : B) :
  Forall (fun r => length r = m) rows -> (i < m)%nat ->
  nth (n * m + i) (concat rows) d = nth i (nth n rows []) d.
Proof.
  intros H Hi. revert n. induction H as [|r rows Hr _ IH]; intros n.
  - cbn [concat]. rewrite (nth_overflow (@nil B) d) by (cbn; lia).
    destruct n; destruct i; reflexivity.
  - cbn [concat]. destruct n as [|n]; cbn [nth].
    + rewrite app_nth1 by (cbn; lia). reflexivity.
    + rewrite app_nth2 by (cbn; lia). rewrite Hr.
      replace (S n * m + i - m)%nat with (n * m + i)%nat by lia. apply IH.
Qed.

(** A column of an array given by its rows. *)
Lemma column_of_rows (rows : list (list Qc)) (i : nat) :
  Forall (fun r => length r = 3%nat) rows -> rows <> [] -> (i < 3)%nat ->
  column (of_rows rows) i = map (fun r => nth i r 0) rows.
Proof.
  intros H Hne Hi. unfold column, cov_obs, of_rows, shape_at. cbn [shape data nth].
  assert (H3 : length (hd [] rows) = 3%nat).
  { destruct rows as [|r rows]; [congruence|]. now inversion H. }
  rewrite H3.
  rewrite (map_ext _ (fun n => (fun r => nth i r 0) (nth n rows [])))
    by (intros n; now apply nth_concat_uniform).
  rewrite <- (map_map (fun n => nth n rows []) (fun r => nth i r 0)).
  now rewrite map_nth_seq.
Qed.

Lemma dot_map {B : Type} (g h : B -> Qc) (l : list B) :
  dot (map g l) (map h l) = fsum (map (fun r => g r * h r) l).
Proof.
  unfold dot. f_equal. induction l as [|r l IH]; [reflexivity|].
  cbn [map combine fst snd]. now rewrite IH.
Qed.

Lemma cov_entry_of_rows (rows : list (list Qc)) (i j : nat) :
  Forall (fun r => length r = 3%nat) rows -> rows <> [] -> (i < 3)%nat -> (j < 3)%nat ->
  cov_entry (of_rows rows) i j
  = fsum (map (fun r => (nth i r 0 - fsum (map (fun r => nth i r 0) rows)
                                     / count (length rows))
                        * (nth j r 0 - fsum (map (fun r => nth j r 0) rows)
                                       / count (length rows)))
              rows)
    * (1 / count (length rows - 1)).
Proof.
  intros H Hne Hi Hj. unfold cov_entry.
  rewrite !column_of_rows by assumption.
  unfold center, mean. rewrite !map_map, !length_map, dot_map.
  cbn [fmul fdiv fsub of_nat Arith_Qc].
  change (shape_at (of_rows rows) 0) with (length rows).
  fold (count (length rows)) (count 1) (count (length rows - 1)).
  rewrite count_1. reflexivity.
Qed.

Lemma cov_entry_Permutation (rows rows' : list (list Qc)) (i j : nat) :
  Forall (fun r => length r = 3%nat) rows -> rows <> [] -> Permutation rows rows' ->
  (i < 3)%nat -> (j < 3)%nat ->
  cov_entry (of_rows rows') i j = cov_entry (of_rows rows) i j.
Proof.
  intros H Hne P Hi Hj.
  assert (H' : Forall (fun r => length r = 3%nat) rows')
    by (eapply Permutation_Forall; eassumption).
  assert (Hne' : rows' <> []).
  { intros E. subst rows'. apply Permutation_sym, Permutation_nil in P. contradiction. }
  rewrite !cov_entry_of_rows by assumption.
  rewrite <- (Permutation_length P).
  rewrite <- (fsum_Permutation _ _ (Permutation_map (fun r => nth i r 0) P)).
  rewrite <- (fsum_Permutation _ _ (Permutation_map (fun r => nth j r 0) P)).
  f_equal. symmetry. apply fsum_Permutation. now apply Permutation_map.
Qed.

End UnitProps.

Section UnitClaims.

Import Exact ExactProps UnitProps.
Local Open Scope Qc_scope.

(** X7. A change of units.  In exact arithmetic, if column [c] of a valid
    input (2-D, 3 columns, [N >= 2] rows, non-zero denominators) is
    multiplied by a non-zero factor [s c], entry [c] of the vector
    [tc_covar] returns is multiplied by [s c * s c] (an error variance
    scales with the square of the unit), and by nothing else: the factors
    of the other two systems cancel. *)
Theorem tc_covar_rescale_systems (ver : numpy_release) (X X' : ndarray Qc)
    (s : nat -> Qc) :
  ndim X = 2 -> shape X' = shape X -> shape_at X 1 = 3%nat -> (2 <= shape_at X 0)%nat ->
  (forall c, (c < 3)%nat -> s c <> 0) ->
  (forall n c, (n < shape_at X 0)%nat -> (c < 3)%nat ->
     item2 X' n c = s c * item2 X n c) ->
  sample_cov X 1 2 <> 0 -> sample_cov X 0 2 <> 0 -> sample_cov X 0 1 <> 0 ->
  exists evar evar',
    tc_covar ver X = Ok evar
    /\ tc_covar ver X' = Ok evar'
    /\ forall c, (c < 3)%nat -> nth c (data evar') 0 = s c * s c * nth c (data evar) 0.
Proof.
  intros H2 Hs H3 HN Hsc Hit D12 D02 D01.
  assert (H2' : ndim X' = 2%nat) by (unfold ndim; now rewrite Hs).
  assert (H3' : shape_at X' 1 = 3%nat) by (unfold shape_at; now rewrite Hs).
  assert (HN' : shape_at X' 0 = shape_at X 0) by (unfold shape_at; now rewrite Hs).
  assert (S : forall i j, (i < 3)%nat -> (j < 3)%nat ->
            sample_cov X' i j = s i * s j * sample_cov X i j).
  { intros i j Hi Hj. unfold sample_cov. rewrite HN'.
    rewrite (seq_cov_ext _ _ (fun n => s i * item2 X n i) _ (fun n => s j * item2 X n j))
      by (intros n Hn; now apply Hit).
    apply seq_cov_scal. }
  do 2 eexists.
  split; [apply (tc_covar_sample_cov ver X H2 H3 HN)|].
  split; [apply (tc_covar_sample_cov ver X' H2' H3'); now rewrite HN'|].
  rewrite !S by lia.
  pose proof (Hsc 0%nat ltac:(lia)) as S0.
  pose proof (Hsc 1%nat ltac:(lia)) as S1.
  pose proof (Hsc 2%nat ltac:(lia)) as S2.
  intros c Hc. destruct c as [|[|[|c]]]; [| | |lia]; cbn [np_array data nth];
    field; repeat split; assumption.
Qed.

(** X8. Noise-free observations.  In exact arithmetic, for observations
    [alpha_i + beta_i * t] with no error at all (non-zero [beta_i], a signal
    [t] that is not constant in the sample, [N >= 2]), [tc_covar] returns
    exactly [(0, 0, 0)]. *)
Theorem tc_covar_noise_free (ver : numpy_release) (alpha beta t : list Qc)
    (errors : ndarray Qc) :
  shape_at errors 1 = 3%nat -> (2 <= shape_at errors 0)%nat ->
  (forall n i, (n < shape_at errors 0)%nat -> (i < 3)%nat -> item2 errors n i = 0) ->
  seq_cov (shape_at errors 0) (fun n => nth n t 0) (fun n => nth n t 0) <> 0 ->
  (forall i, (i < 3)%nat -> nth i beta 0 <> 0) ->
  tc_covar ver (generate_sample alpha beta t errors) = Ok (np_array [0; 0; 0]).
Proof.
  intros H3 HN Hz Htt Hb.
  assert (Z : forall i (x : nat -> Qc), (i < 3)%nat ->
            seq_cov (shape_at errors 0) x (fun n => item2 errors n i) = 0).
  { intros i x Hi.
    rewrite (seq_cov_ext _ x x _ (fun _ => 0)) by (auto; intros n Hn; now apply Hz).
    apply seq_cov_zero_r. }
  rewrite tc_covar_generate_sample; try assumption.
  - rewrite <- !sample_cov_diag. unfold sample_cov. now rewrite !Z by lia.
  - intros i Hi. now apply Z.
  - intros i j Hi Hj _. now apply Z.
Qed.

(** X9. The order of the observations does not matter.  In exact
    arithmetic, for an input of [N >= 2] rows of 3 items, [tc_covar] gives
    the same outcome on every permutation of the rows. *)
Theorem tc_covar_row_order (ver : numpy_release) (rows rows' : list (list Qc)) :
  Forall (fun r => length r = 3%nat) rows -> (2 <= length rows)%nat ->
  Permutation rows rows' ->
  tc_covar ver (of_rows rows') = tc_covar ver (of_rows rows).
Proof.
  intros H HN P.
  assert (Hne : rows <> []) by (destruct rows; [cbn in HN; lia|discriminate]).
  assert (H' : Forall (fun r => length r = 3%nat) rows')
    by (eapply Permutation_Forall; eassumption).
  assert (HN' : (2 <= length rows')%nat) by now rewrite <- (Permutation_length P).
  assert (Sh : forall l : list (list Qc), Forall (fun r => length r = 3%nat) l ->
               (2 <= length l)%nat -> shape (of_rows l) = [length l; 3%nat]).
  { intros l Hl Hn. unfold of_rows. cbn [shape].
    destruct l as [|r l]; [cbn in Hn; lia|]. inversion Hl as [|? ? Hr ?]; subst.
    cbn [hd]. now rewrite Hr. }
  assert (T : forall l : list (list Qc), Forall (fun r => length r = 3%nat) l ->
              (2 <= length l)%nat ->
              ndim (of_rows l) = 2%nat /\ shape_at (of_rows l) 1 = 3%nat
              /\ cov_transposes ver (of_rows l) = true).
  { intros l Hl Hn. pose proof (Sh l Hl Hn) as E.
    assert (E2 : ndim (of_rows l) = 2%nat) by (unfold ndim; now rewrite E).
    split; [exact E2|]. split; [unfold shape_at; now rewrite E|].
    apply cov_transposes_true; [exact E2|].
    left. unfold shape_at. rewrite E. cbn [nth]. lia. }
  destruct (T rows H HN) as [A2 [A3 At]]. destruct (T rows' H' HN') as [B2 [B3 Bt]].
  rewrite (tc_covar_transposed ver (of_rows rows) A2 A3 At).
  rewrite (tc_covar_transposed ver (of_rows rows') B2 B3 Bt).
  cbv zeta. now rewrite !(cov_entry_Permutation rows rows') by (auto; lia).
Qed.

End UnitClaims.

Lemma tc_covar_rescale_systems_witness :
  exists evar evar',
    tc_covar numpy_pre_2_2 (zrows obs4) = Ok evar
    /\ tc_covar numpy_pre_2_2 (zrows obs4_rescaled) = Ok evar'
    /\ forall c, c < 3 ->
         nth c (data evar') 0%Qc
         = (nth c (qlist [2; 3; 5]%Z) 0 * nth c (qlist [2; 3; 5]%Z) 0
            * nth c (data evar) 0)%Qc.
Proof.
  apply (tc_covar_rescale_systems numpy_pre_2_2 (zrows obs4) (zrows obs4_rescaled)
           (fun c => nth c (qlist [2; 3; 5]%Z) 0%Qc)).
  - reflexivity.
  - reflexivity.
  - reflexivity.
  - vm_compute. lia.
  - intros c Hc. destruct c as [|[|[|c]]]; [| | |lia];
      intros H; apply (f_equal this) in H; vm_compute in H; discriminate.
  - intros n c Hn Hc. change (shape_at (zrows obs4) 0) with 4 in Hn.
    destruct n as [|[|[|[|n]]]]; [| | | |lia];
      (destruct c as [|[|[|c]]]; [| | |lia]);
      apply Qc_is_canon; vm_compute; reflexivity.
  - intros H; apply (f_equal this) in H; vm_compute in H; discriminate.
  - intros H; apply (f_equal this) in H; vm_compute in H; discriminate.
  - intros H; apply (f_equal this) in H; vm_compute in H; discriminate.
Defined.

Lemma tc_covar_noise_free_witness :
  tc_covar numpy_pre_2_2 (generate_sample (qlist [0; 2; 4]%Z) (qlist [1; 3; 5]%Z)
                                   (qlist signal4) (zrows errors4_none))
  = Ok (np_array [0; 0; 0]%Qc).
Proof.
  apply (tc_covar_noise_free numpy_pre_2_2 (qlist [0; 2; 4]%Z) (qlist [1; 3; 5]%Z)
           (qlist signal4) (zrows errors4_none)).
  - reflexivity.
  - vm_compute. lia.
  - intros n i Hn Hi. change (shape_at (zrows errors4_none) 0) with 4 in Hn.
    destruct n as [|[|[|[|n]]]]; [| | | |lia];
      (destruct i as [|[|[|i]]]; [| | |lia]); reflexivity.
  - intros H; apply (f_equal this) in H; vm_compute in H; discriminate.
  - intros i Hi. destruct i as [|[|[|i]]]; [| | |lia];
      intros H; apply (f_equal this) in H; vm_compute in H; discriminate.
Defined.

Lemma tc_covar_row_order_witness :
  tc_covar numpy_pre_2_2 (of_rows (rev (map qlist obs4)))
  = tc_covar numpy_pre_2_2 (of_rows (map qlist obs4)).
Proof.
  apply (tc_covar_row_order numpy_pre_2_2 (map qlist obs4) (rev (map qlist obs4))).
  - repeat constructor.
  - vm_compute. lia.
  - apply Permutation_rev.
Defined.

(** ** Two observations *)

Section TwoRows.

Import Exact ExactProps.
Local Open Scope Qc_scope.

Lemma count_2 : count 2 = 1 + 1.
Proof. now apply Qc_is_canon. Qed.

Lemma two_nonzero : (1 + 1 : Qc) <> 0.
Proof. intros H; apply (f_equal this) in H; vm_compute in H; discriminate. Qed.

(** With two rows, every covariance is half the product of the two
    differences. *)
Lemma sample_cov_two_rows (X : ndarray Qc) (i j : nat) :
  shape_at X 0 = 2%nat ->
  sample_cov X i j
  = (item2 X 0 i - item2 X 1 i) * (item2 X 0 j - item2 X 1 j) / (1 + 1).
Proof.
  intros HN. unfold sample_cov, seq_cov, seq_mean. rewrite HN.
  cbn [bigsum Nat.sub]. rewrite count_2, count_1.
  field. split; intros E; apply (f_equal this) in E; vm_compute in E; discriminate.
Qed.

(** X17. Two observations carry no information.  In exact arithmetic, for
    an input of exactly two rows (the least the documented precondition
    [N >= 2] admits) whose two observations differ for every system,
    [tc_covar] returns exactly [(0, 0, 0)], whatever the data. *)
Theorem tc_covar_two_rows (ver : numpy_release) (X : ndarray Qc) :
  ndim X = 2 -> shape_at X 0 = 2%nat -> shape_at X 1 = 3%nat ->
  (forall c, (c < 3)%nat -> item2 X 0 c <> item2 X 1 c) ->
  tc_covar ver X = Ok (np_array [0; 0; 0]).
Proof.
  intros H2 HN H3 Hd.
  rewrite (tc_covar_sample_cov ver X H2 H3) by lia.
  rewrite !sample_cov_two_rows by assumption.
  assert (D : forall c, (c < 3)%nat -> item2 X 0 c - item2 X 1 c <> 0).
  { intros c Hc E. apply (Hd c Hc).
    replace (item2 X 0 c) with ((item2 X 0 c - item2 X 1 c) + item2 X 1 c) by ring.
    rewrite E. ring. }
  pose proof (D 0%nat ltac:(lia)) as D0.
  pose proof (D 1%nat ltac:(lia)) as D1.
  pose proof (D 2%nat ltac:(lia)) as D2.
  pose proof two_nonzero as T.
  do 3 f_equal; [|f_equal; [|f_equal]]; field; repeat split; assumption.
Qed.

End TwoRows.

Lemma tc_covar_two_rows_witness :
  tc_covar numpy_pre_2_2 (zrows obs4_two) = Ok (np_array [0; 0; 0]%Qc).
Proof.
  apply (tc_covar_two_rows numpy_pre_2_2 (zrows obs4_two)); try reflexivity.
  intros c Hc. destruct c as [|[|[|c]]]; [| | |lia];
    intros H; apply (f_equal this) in H; vm_compute in H; discriminate.
Defined.

(** ** Missing values *)

Module NaN.

Lemma add_nan_l (y : binary64) : fadd S754_nan y = S754_nan.
Proof. reflexivity. Qed.

Lemma add_nan_r (x : binary64) : fadd x S754_nan = S754_nan.
Proof. destruct x; reflexivity. Qed.

Lemma sub_nan_l (y : binary64) : fsub S754_nan y = S754_nan.
Proof. reflexivity. Qed.

Lemma sub_nan_r (x : binary64) : fsub x S754_nan = S754_nan.
Proof. destruct x; reflexivity. Qed.

Lemma mul_nan_l (y : binary64) : fmul S754_nan y = S754_nan.
Proof. reflexivity. Qed.

Lemma mul_nan_r (x : binary64) : fmul x S754_nan = S754_nan.
Proof. destruct x; reflexivity. Qed.

Lemma div_nan_l (y : binary64) : fdiv S754_nan y = S754_nan.
Proof. reflexivity. Qed.

Lemma div_nan_r (x : binary64) : fdiv x S754_nan = S754_nan.
Proof. destruct x; reflexivity. Qed.

Lemma fold_add_nan (l : list binary64) : fold_left fadd l S754_nan = S754_nan.
Proof.
  induction l as [|x l IH]; [reflexivity|]. cbn [fold_left]. now rewrite add_nan_l.
Qed.

(** A sum with a NaN term is NaN. *)
Lemma fsum_nan (l : list binary64) : In S754_nan l -> fsum l = S754_nan.
Proof.
  unfold fsum. generalize (f0 (F := binary64)) as a.
  induction l as [|x l IH]; intros a H; [destruct H|].
  cbn [fold_left]. destruct H as [->|H].
  - now rewrite add_nan_r, fold_add_nan.
  - now apply IH.
Qed.

(** Centring a series that holds a NaN leaves NaN only. *)
Lemma center_nan (xs : list binary64) :
  In S754_nan xs -> center xs = map (fun _ => S754_nan) xs.
Proof.
  intros H. unfold center, mean. rewrite (fsum_nan xs H), div_nan_l.
  apply map_ext. intros x. apply sub_nan_r.
Qed.

Lemma dot_nan_l (xs ys : list binary64) :
  length ys = length xs -> xs <> [] ->
  dot (map (fun _ => S754_nan) xs) ys = S754_nan.
Proof.
  intros L Hne. unfold dot. apply fsum_nan.
  destruct xs as [|x xs]; [congruence|]. destruct ys as [|y ys]; [discriminate|].
  cbn [map combine fst snd]. left. reflexivity.
Qed.

Lemma dot_nan_r (xs ys : list binary64) :
  length xs = length ys -> ys <> [] ->
  dot xs (map (fun _ => S754_nan) ys) = S754_nan.
Proof.
  intros L Hne. unfold dot. apply fsum_nan.
  destruct ys as [|y ys]; [congruence|]. destruct xs as [|x xs]; [discriminate|].
  cbn [map combine fst snd]. left. apply mul_nan_r.
Qed.

Lemma length_center (xs : list binary64) : length (center xs) = length xs.
Proof. unfold center. apply length_map. Qed.

Lemma length_column (X : ndarray binary64) (v : nat) : length (column X v) = shape_at X 0.
Proof. unfold column, cov_obs. now rewrite length_map, length_seq. Qed.

Lemma column_nan (X : ndarray binary64) (r c : nat) :
  r < shape_at X 0 -> item2 X r c = S754_nan -> In S754_nan (column X c).
Proof.
  intros Hr E. unfold column, cov_obs. apply in_map_iff.
  exists r. split; [exact E|]. apply in_seq. lia.
Qed.

(** A NaN in column [c] makes row [c] and column [c] of the covariance
    matrix NaN. *)
Lemma cov_entry_nan (X : ndarray binary64) (r c w : nat) :
  r < shape_at X 0 -> item2 X r c = S754_nan ->
  cov_entry X c w = S754_nan /\ cov_entry X w c = S754_nan.
Proof.
  intros Hr E. pose proof (column_nan X r c Hr E) as H.
  assert (Hne : forall v, column X v <> []).
  { intros v Z. apply (f_equal (@length _)) in Z. rewrite length_column in Z.
    cbn in Z. lia. }
  unfold cov_entry. rewrite (center_nan _ H). split.
  - rewrite dot_nan_l, mul_nan_l; auto.
    now rewrite length_center, !length_column.
  - rewrite dot_nan_r, mul_nan_l; auto.
    now rewrite length_center, !length_column.
Qed.

End NaN.

(** X10. Missing values are not skipped.  On binary64, if one observation of
    one system of a 2-D, 3-column input is NaN, [tc_covar] raises nothing
    and all three entries of the vector it returns are NaN: every estimate
    uses covariances of all three systems. *)
Theorem tc_covar_nan_propagates (ver : numpy_release) (X : ndarray binary64) (r c : nat) :
  ndim X = 2 -> shape_at X 1 = 3 -> shape_at X 0 <> 1 \/ ver = numpy_2_2 ->
  r < shape_at X 0 -> c < 3 -> item2 X r c = S754_nan ->
  tc_covar ver X = Ok (np_array [S754_nan; S754_nan; S754_nan]).
Proof.
  intros H2 H3 Ht Hr Hc E.
  rewrite tc_covar_transposed by auto using cov_transposes_true.
  cbv zeta.
  pose proof (fun w => proj1 (NaN.cov_entry_nan X r c w Hr E)) as L.
  pose proof (fun w => proj2 (NaN.cov_entry_nan X r c w Hr E)) as R.
  destruct c as [|[|[|c]]]; [| | |lia];
    rewrite ?L, ?R;
    rewrite ?NaN.mul_nan_l, ?NaN.mul_nan_r, ?NaN.div_nan_l, ?NaN.div_nan_r,
            ?NaN.sub_nan_l, ?NaN.sub_nan_r;
    reflexivity.
Qed.

Lemma tc_covar_nan_propagates_witness :
  tc_covar numpy_pre_2_2 obs4_missing = Ok (np_array [S754_nan; S754_nan; S754_nan]).
Proof.
  apply (tc_covar_nan_propagates numpy_pre_2_2 obs4_missing 1 1).
  - reflexivity.
  - reflexivity.
  - left. vm_compute. lia.
  - vm_compute. lia.
  - lia.
  - reflexivity.
Defined.

(** * The example notebooks *)

(** ** The sample generator *)

Section GeneratorFacts.

Context {F : Type} {A : Arith F}.
Local Open Scope arith_scope.

Lemma length_correlate_same (a w : list F) :
  1 <= length w -> length w <= length a ->
  length (correlate_same a w) = length a.
Proof.
  intros H1 H2. unfold correlate_same.
  rewrite !length_app, !length_map, !length_seq.
  pose proof (Nat.div_lt (length w) 2 ltac:(lia) ltac:(lia)). lia.
Qed.

Lemma length_boxcar5 : length (boxcar5 (F := F)) = 5.
Proof. reflexivity. Qed.

(** [np.convolve(a, v, 'same')] has the length of the longer argument. *)
Lemma np_convolve_same_length (a v : list F) :
  1 <= length a -> 1 <= length v ->
  exists t, np_convolve_same a v = Ok t /\ length t = Nat.max (length a) (length v).
Proof.
  intros Ha Hv. unfold np_convolve_same.
  destruct (Nat.ltb_spec (length a) (length v)) as [L|L].
  - destruct (Nat.eqb_spec (length v) 0); [lia|].
    destruct (Nat.eqb_spec (length a) 0); [lia|].
    eexists. split; [reflexivity|].
    rewrite length_correlate_same by (rewrite length_rev; lia). lia.
  - destruct (Nat.eqb_spec (length a) 0); [lia|].
    destruct (Nat.eqb_spec (length v) 0); [lia|].
    eexists. split; [reflexivity|].
    rewrite length_correlate_same by (rewrite length_rev; lia). lia.
Qed.

(** With one offset and one scale factor per column, broadcasting is the
    affine error model [generate_sample]. *)
Lemma generate_sample_drawn_K (nsamples K : nat) (alpha beta t_original t : list F)
    (errors : ndarray F) :
  np_convolve_same t_original boxcar5 = Ok t -> length t = nsamples ->
  shape errors = [nsamples; K] -> length alpha = K -> length beta = K ->
  generate_sample_drawn nsamples alpha beta t_original errors
  = Ok (generate_sample alpha beta t errors).
Proof.
  intros Ht Hl Hs Ha Hb. unfold generate_sample_drawn. rewrite Ht. cbn [bind].
  rewrite Hl, Nat.eqb_refl. cbn [negb].
  unfold broadcast_dim, generate_sample, shape_at. rewrite Ha, Hb, Hs. cbn [nth].
  rewrite !Nat.eqb_refl. do 2 f_equal.
  apply flat_map_ext. intros n. apply map_ext_in. intros i Hi.
  apply in_seq in Hi. unfold bitem. rewrite Ha, Hb.
  destruct (Nat.eqb_spec K 1) as [->|]; [|reflexivity].
  replace i with 0 by lia. reflexivity.
Qed.

Lemma item2_generate_sample_any (alpha beta t : list F) (errors : ndarray F) (n i : nat) :
  n < shape_at errors 0 -> i < shape_at errors 1 ->
  item2 (generate_sample alpha beta t errors) n i
  = nth i alpha f0 [+] nth i beta f0 [*] nth n t f0 [+] item2 errors n i.
Proof.
  intros Hn Hi. unfold item2 at 1, generate_sample. cbn [data].
  change (shape_at (mk_ndarray [shape_at errors 0; shape_at errors 1] _) 1)
    with (shape_at errors 1).
  now rewrite nth_flat_map_seq.
Qed.

(** X11. [generate_sample] needs five samples.  On any carrier, whatever
    the random draws (one offset and one scale factor per system): for
    [nsamples >= 5] the smoothed signal [t] has [nsamples] items and the
    function returns the [nsamples x K] array of the items
    [alpha_i + beta_i * t_n + errors[n, i]]; for [nsamples < 5] it raises
    [ValueError] ([np.convolve] returns the length of the longer argument,
    the window's 5, which cannot be reshaped to [nsamples] rows; for no
    sample at all [np.convolve] itself refuses the empty array). *)
Theorem generate_sample_needs_five_samples (nsamples K : nat)
    (alpha beta t_original : list F) (errors : ndarray F) :
  length t_original = nsamples -> shape errors = [nsamples; K] ->
  length alpha = K -> length beta = K ->
  (5 <= nsamples ->
     exists t x,
       np_convolve_same t_original boxcar5 = Ok t
       /\ length t = nsamples
       /\ generate_sample_drawn nsamples alpha beta t_original errors = Ok x
       /\ shape x = [nsamples; K]
       /\ forall n i, n < nsamples -> i < K ->
            item2 x n i
            = nth i alpha f0 [+] nth i beta f0 [*] nth n t f0 [+] item2 errors n i)
  /\ (nsamples < 5 ->
      exists msg,
        generate_sample_drawn nsamples alpha beta t_original errors
        = Raise (ValueError msg)).
Proof.
  intros Ht Hs Ha Hb. split.
  - intros H5.
    destruct (np_convolve_same_length t_original boxcar5) as [t [E L]];
      [lia | rewrite length_boxcar5; lia |].
    rewrite length_boxcar5, Ht in L.
    exists t, (generate_sample alpha beta t errors).
    split; [exact E|]. split; [lia|]. split; [|split].
    + apply (generate_sample_drawn_K nsamples K); auto. lia.
    + unfold generate_sample, shape_at. rewrite Hs. reflexivity.
    + intros n i Hn Hi. apply item2_generate_sample_any; unfold shape_at; now rewrite Hs.
  - intros H5. unfold generate_sample_drawn.
    destruct nsamples as [|n].
    + apply length_zero_iff_nil in Ht. subst t_original.
      eexists. reflexivity.
    + destruct (np_convolve_same_length t_original boxcar5) as [t [E L]];
        [lia | rewrite length_boxcar5; lia |].
      rewrite length_boxcar5, Ht in L. rewrite E. cbn [bind].
      destruct (Nat.eqb_spec (length t) (S n)) as [E'|E']; [lia|].
      cbn [negb]. eexists. reflexivity.
Qed.

(** X12. The loop body of the notebook,
    [tc_covar(generate_sample(i, sigma, alpha, beta))] for [i] in
    [range(5, 5001)]: on any carrier and every NumPy release, for every
    [nsamples >= 5] and three systems, whatever the draws, neither call
    raises and the result is a vector of length 3. *)
Theorem tc_covar_generate_sample_returns (ver : numpy_release) (nsamples : nat)
    (alpha beta t_original : list F) (errors : ndarray F) :
  5 <= nsamples ->
  length t_original = nsamples -> shape errors = [nsamples; 3] ->
  length alpha = 3 -> length beta = 3 ->
  exists x evar,
    generate_sample_drawn nsamples alpha beta t_original errors = Ok x
    /\ shape x = [nsamples; 3]
    /\ tc_covar ver x = Ok evar
    /\ shape evar = [3].
Proof.
  intros H5 Ht Hs Ha Hb.
  destruct (np_convolve_same_length t_original boxcar5) as [t [E L]];
    [lia | rewrite length_boxcar5; lia |].
  rewrite length_boxcar5, Ht in L.
  exists (generate_sample alpha beta t errors).
  assert (Hx : shape (generate_sample alpha beta t errors) = [nsamples; 3])
    by (unfold generate_sample, shape_at; rewrite Hs; reflexivity).
  eexists. split; [|split; [exact Hx|split]].
  - apply (generate_sample_drawn_K nsamples 3); auto. lia.
  - apply tc_covar_transposed.
    + unfold ndim. now rewrite Hx.
    + unfold shape_at. now rewrite Hx.
    + apply cov_transposes_true; [unfold ndim; now rewrite Hx|].
      left. unfold shape_at. rewrite Hx. cbn [nth]. lia.
  - reflexivity.
Qed.

(** The five-point window: two items at each end see a shorter window. *)
Lemma correlate_same_5 (a w : list F) :
  length w = 5 -> 5 <= length a ->
  correlate_same a w
  = [dot (firstn 3 a) (skipn 2 w); dot (firstn 4 a) (skipn 1 w)]
    ++ map (fun i => dot (firstn 5 (skipn i a)) w) (seq 0 (length a - 4))
    ++ [dot (skipn (length a - 4) a) (firstn 4 w);
        dot (skipn (length a - 3) a) (firstn 3 w)].
Proof.
  intros Hw Ha. unfold correlate_same. rewrite Hw.
  change (5 / 2) with 2. cbn [Nat.sub seq map Nat.add].
  replace (length a - 5 + 1) with (length a - 4) by lia.
  replace (length a - 4 + 1) with (length a - 3) by lia.
  rewrite Nat.add_0_r. reflexivity.
Qed.

End GeneratorFacts.

Lemma generate_sample_needs_five_samples_witness :
  (5 <= 6 ->
     exists t x,
       np_convolve_same (qlist draws6) boxcar5 = Ok t
       /\ length t = 6
       /\ generate_sample_drawn 6 (qlist [0; 2; 4]%Z) (qlist [1; 3; 5]%Z)
                                (qlist draws6) (zrows errors6) = Ok x
       /\ shape x = [6; 3]
       /\ forall n i, n < 6 -> i < 3 ->
            item2 x n i
            = fadd (fadd (nth i (qlist [0; 2; 4]%Z) f0)
                         (fmul (nth i (qlist [1; 3; 5]%Z) f0) (nth n t f0)))
                   (item2 (zrows errors6) n i))
  /\ (6 < 5 ->
      exists msg,
        generate_sample_drawn 6 (qlist [0; 2; 4]%Z) (qlist [1; 3; 5]%Z)
                              (qlist draws6) (zrows errors6)
        = Raise (ValueError msg)).
Proof.
  apply (generate_sample_needs_five_samples 6 3 (qlist [0; 2; 4]%Z) (qlist [1; 3; 5]%Z)
           (qlist draws6) (zrows errors6)); reflexivity.
Defined.

(** Four samples: the smoothed signal has the window's five items. *)
Example generate_sample_four_samples :
  generate_sample_drawn 4 (qlist [0; 2; 4]%Z) (qlist [1; 3; 5]%Z) (qlist draws4)
                        (zrows errors4)
  = Raise (ValueError "cannot reshape array of size 5 into shape (4,1)").
Proof. reflexivity. Qed.

Lemma tc_covar_generate_sample_returns_witness :
  exists x evar,
    generate_sample_drawn 6 (flist [0; 2; 4]%Z) (flist [1; 3; 5]%Z) (flist draws6)
                          (frows errors6) = Ok x
    /\ shape x = [6; 3]
    /\ tc_covar numpy_pre_2_2 x = Ok evar
    /\ shape evar = [3].
Proof.
  apply (tc_covar_generate_sample_returns numpy_pre_2_2 6 (flist [0; 2; 4]%Z)
           (flist [1; 3; 5]%Z) (flist draws6) (frows errors6));
    [lia | reflexivity..].
Defined.

(** ** The boxcar filter *)

Module SmoothingProps.

Import Exact ExactProps UnitProps.
Local Open Scope Qc_scope.

Lemma fsum_firstn (k : nat) (l : list Qc) :
  fsum (firstn k l) = bigsum k (fun j => nth j l 0).
Proof.
  revert l. induction k as [|k IH]; intros l; [reflexivity|].
  destruct (Nat.lt_ge_cases k (length l)) as [H|H].
  - assert (E : firstn (S k) l = firstn k l ++ [nth k l 0]).
    { clear IH. revert k H. induction l as [|x l IHl]; intros k H; cbn [length] in H; [lia|].
      destruct k as [|k]; [reflexivity|].
      cbn [firstn nth app]. f_equal. apply IHl. lia. }
    rewrite E, fsum_app, IH. cbn [bigsum]. f_equal.
    unfold fsum. cbn [fold_left fadd f0 Arith_Qc]. ring.
  - rewrite firstn_all2 by lia. rewrite <- (firstn_all2 (n := k) l) at 1 by lia.
    rewrite IH. cbn [bigsum]. rewrite (nth_overflow l 0 H). ring.
Qed.

Lemma dot_repeat (c : Qc) (k : nat) (xs : list Qc) :
  dot xs (repeat c k) = c * fsum (firstn k xs).
Proof.
  unfold dot. revert xs. induction k as [|k IH]; intros xs.
  - cbn [repeat firstn]. rewrite combine_nil. cbn. ring.
  - destruct xs as [|x xs]; [cbn; ring|].
    cbn [repeat combine map fst snd firstn].
    rewrite !fsum_cons, IH. cbn [fmul Arith_Qc]. ring.
Qed.

Lemma rev_boxcar5 : rev boxcar5 = repeat (1 / count 5) 5.
Proof. reflexivity. Qed.

Lemma bigsum_le (N : nat) (f g : nat -> Qc) :
  (forall n, (n < N)%nat -> f n <= g n) -> bigsum N f <= bigsum N g.
Proof.
  induction N as [|N IH]; intros H; cbn [bigsum]; [apply Qcle_refl|].
  apply Qcplus_le_compat; [apply IH; auto with arith|apply H; lia].
Qed.

(** Item [n] of the five-point correlation with a constant window [c]:
    [c] times the sum of the input over the window, the input padded with
    zeros at both ends. *)
Lemma correlate_same_5_item (a : list Qc) (c : Qc) (n : nat) :
  (5 <= length a)%nat -> (n < length a)%nat ->
  nth n (correlate_same a (repeat c 5)) 0
  = c * bigsum 5 (fun k => if (2 <=? n + k)%nat then nth (n + k - 2) a 0 else 0).
Proof.
  intros H5 Hn. rewrite correlate_same_5 by (try rewrite repeat_length; lia).
  change (skipn 2 (repeat c 5)) with (repeat c 3).
  change (skipn 1 (repeat c 5)) with (repeat c 4).
  change (firstn 4 (repeat c 5)) with (repeat c 4).
  change (firstn 3 (repeat c 5)) with (repeat c 3).
  destruct n as [|[|n]].
  - cbn [app nth]. rewrite dot_repeat, firstn_firstn. cbn [Nat.min].
    rewrite fsum_firstn. cbn [bigsum Nat.add Nat.leb Nat.sub]. ring.
  - cbn [app nth]. rewrite dot_repeat, firstn_firstn. cbn [Nat.min].
    rewrite fsum_firstn. cbn [bigsum Nat.add Nat.leb Nat.sub]. ring.
  - cbn [app nth].
    rewrite (bigsum_ext 5 _ (fun k => nth (n + k) a 0)).
    2:{ intros k _. cbn [Nat.add Nat.leb Nat.sub]. now rewrite Nat.sub_0_r. }
    destruct (Nat.lt_ge_cases n (length a - 4)) as [H|H].
    + rewrite app_nth1 by (rewrite length_map, length_seq; lia).
      rewrite nth_indep with (d' := (fun i => dot (firstn 5 (skipn i a)) (repeat c 5)) 0%nat)
        by (rewrite length_map, length_seq; lia).
      rewrite (map_nth (fun i => dot (firstn 5 (skipn i a)) (repeat c 5))).
      rewrite seq_nth by lia. cbn [Nat.add].
      rewrite dot_repeat, firstn_firstn. cbn [Nat.min]. rewrite fsum_firstn.
      f_equal. apply bigsum_ext. intros k _. now rewrite nth_skipn.
    + rewrite app_nth2 by (rewrite length_map, length_seq; lia).
      rewrite length_map, length_seq.
      assert (E : (n - (length a - 4) = 0 \/ n - (length a - 4) = 1)%nat) by lia.
      destruct E as [E|E]; rewrite E; cbn [nth].
      * replace (length a - 4)%nat with n by lia.
        rewrite dot_repeat, fsum_firstn.
        cbn [bigsum]. rewrite !nth_skipn.
        rewrite (nth_overflow a 0 (n := n + 4)) by lia. ring.
      * replace (length a - 3)%nat with n by lia.
        rewrite dot_repeat, fsum_firstn.
        cbn [bigsum]. rewrite !nth_skipn.
        rewrite (nth_overflow a 0 (n := n + 4)), (nth_overflow a 0 (n := n + 3)) by lia.
        ring.
Qed.

Lemma fifth_nonneg : 0 <= 1 / count 5.
Proof. unfold Qcle. vm_compute. discriminate. Qed.

Lemma fifth_count : 1 / count 5 * (count 5 * 1) = 1.
Proof. apply Qc_is_canon. vm_compute. reflexivity. Qed.

End SmoothingProps.

Section SmoothingClaims.

Import Exact ExactProps SmoothingProps.
Local Open Scope Qc_scope.

(** X13. The smoothed signal [t = np.convolve(t_original, np.ones(5) / 5,
    "same")].  In exact arithmetic, for five draws or more: [t] has the
    length of [t_original]; item [n] is the sum of [t_original] over the
    window [n - 2 .. n + 2], the input padded with zeros at both ends,
    divided by 5 (so the first and the last two items are damped); and if
    every draw lies in [[0, c]] (the notebook draws from [[0, 10)]), so does
    every item of [t]. *)
Theorem boxcar_moving_average (a : list Qc) (c : Qc) :
  (5 <= length a)%nat ->
  exists t,
    np_convolve_same a boxcar5 = Ok t
    /\ length t = length a
    /\ (forall n, (n < length a)%nat ->
          nth n t 0
          = bigsum 5 (fun k => if (2 <=? n + k)%nat then nth (n + k - 2) a 0 else 0)
            / count 5)
    /\ ((forall j, (j < length a)%nat -> 0 <= nth j a 0 /\ nth j a 0 <= c) ->
        forall n, (n < length a)%nat -> 0 <= nth n t 0 /\ nth n t 0 <= c).
Proof.
  intros H5.
  assert (E : np_convolve_same a boxcar5 = Ok (correlate_same a (repeat (1 / count 5) 5))).
  { unfold np_convolve_same. change (length boxcar5) with 5%nat.
    destruct (Nat.ltb_spec (length a) 5) as [L|L]; [lia|].
    destruct (Nat.eqb_spec (length a) 0) as [Z|Z]; [lia|].
    cbn [Nat.eqb]. now rewrite rev_boxcar5. }
  eexists. split; [exact E|]. split; [|split].
  - apply length_correlate_same; rewrite repeat_length; lia.
  - intros n Hn. rewrite correlate_same_5_item by assumption.
    unfold Qcdiv. ring.
  - intros Hb n Hn. rewrite correlate_same_5_item by assumption.
    set (z := fun k => if (2 <=? n + k)%nat then nth (n + k - 2) a 0 else 0).
    assert (C0 : 0 <= c).
    { destruct (Hb 0%nat ltac:(lia)) as [L U]. now apply Qcle_trans with (nth 0 a 0). }
    assert (Z : forall k, 0 <= z k /\ z k <= c).
    { intros k. unfold z. destruct (2 <=? n + k)%nat; [|split; [apply Qcle_refl|exact C0]].
      destruct (Nat.lt_ge_cases (n + k - 2) (length a)) as [H|H]; [now apply Hb|].
      rewrite nth_overflow by assumption. split; [apply Qcle_refl|exact C0]. }
    split.
    + replace 0 with (1 / count 5 * bigsum 5 (fun _ => 0)) at 1
        by (rewrite bigsum_const; ring).
      rewrite !(Qcmult_comm (1 / count 5)).
      apply Qcmult_le_compat_r; [|apply fifth_nonneg].
      apply bigsum_le. intros k _. apply Z.
    + assert (Ec : bigsum 5 (fun _ => c) * (1 / count 5) = c).
      { rewrite bigsum_const.
        replace (count 5 * c * (1 / count 5)) with (1 / count 5 * (count 5 * 1) * c) by ring.
        rewrite fifth_count. ring. }
      rewrite Qcmult_comm.
      apply Qcle_trans with (y := bigsum 5 (fun _ => c) * (1 / count 5)).
      * apply Qcmult_le_compat_r; [|apply fifth_nonneg].
        apply bigsum_le. intros k _. apply Z.
      * rewrite Ec. apply Qcle_refl.
Qed.

End SmoothingClaims.

Lemma boxcar_moving_average_witness :
  exists t,
    np_convolve_same (qlist draws6) boxcar5 = Ok t
    /\ length t = length (qlist draws6)
    /\ (forall n, n < length (qlist draws6) ->
          nth n t 0%Qc
          = (Exact.bigsum 5 (fun k => if 2 <=? n + k
                                      then nth (n + k - 2) (qlist draws6) 0
                                      else 0)
             / Exact.count 5)%Qc)
    /\ ((forall j, j < length (qlist draws6) ->
           (0 <= nth j (qlist draws6) 0)%Qc
           /\ (nth j (qlist draws6) 0 <= Exact.count 10)%Qc) ->
        forall n, n < length (qlist draws6) ->
          (0 <= nth n t 0)%Qc /\ (nth n t 0 <= Exact.count 10)%Qc).
Proof.
  apply (boxcar_moving_average (qlist draws6) (Exact.count 10)).
  vm_compute. lia.
Defined.

(** The smoothed [draws6]: 3, 5, 5, 6, 4, 3. *)
Example boxcar_draws6 :
  match np_convolve_same (qlist draws6) boxcar5 with
  | Ok t => map this t = [3 # 1; 5 # 1; 5 # 1; 6 # 1; 4 # 1; 3 # 1]%Q
  | Raise _ => False
  end.
Proof. vm_compute. reflexivity. Qed.

(** ** The layout of the simulations *)

Lemma slice_indices_regular (L start stop step n : nat) :
  0 < step -> 0 < n -> start + (n - 1) * step < L ->
  start + (n - 1) * step < stop -> stop <= start + n * step ->
  slice_indices L start stop step = map (fun j => start + j * step) (seq 0 n).
Proof.
  intros Hs Hn HL Hlo Hhi. unfold slice_indices.
  assert (E1 : Nat.min start L = start) by nia.
  rewrite E1.
  destruct (Nat.ltb_spec start (Nat.min stop L)) as [H|H]; [|nia].
  replace ((Nat.min stop L - start - 1) / step + 1) with n; [reflexivity|].
  assert (Q : n - 1 = (Nat.min stop L - start - 1) / step).
  { apply (Nat.div_unique _ _ _ (Nat.min stop L - start - 1 - step * (n - 1))); nia. }
  lia.
Qed.

Lemma unravel3 (a b c i j k : nat) :
  j < b -> k < c -> unravel [a; b; c] ((i * b + j) * c + k) = [i; j; k].
Proof.
  intros Hj Hk. unfold unravel, size. cbn [fold_right]. rewrite !Nat.mul_1_r.
  assert (E1 : ((i * b + j) * c + k) / (b * c) = i)
    by (symmetry; apply (Nat.div_unique _ _ _ (j * c + k)); nia).
  assert (E2 : ((i * b + j) * c + k) mod (b * c) = j * c + k)
    by (symmetry; apply (Nat.mod_unique _ _ i); nia).
  assert (E3 : (j * c + k) / c = j)
    by (symmetry; apply (Nat.div_unique _ _ _ k); nia).
  assert (E4 : (j * c + k) mod c = k)
    by (symmetry; apply (Nat.mod_unique _ _ j); nia).
  now rewrite E1, E2, E3, E4, Nat.div_1_r.
Qed.

Lemma length_flat_map_rows {B C : Type} (f : nat -> B -> C) (l : list B) (s n : nat) :
  length (flat_map (fun r => map (f r) l) (seq s n)) = n * length l.
Proof.
  revert s. induction n as [|n IH]; intros s; [reflexivity|].
  cbn [seq flat_map]. rewrite length_app, length_map, IH. lia.
Qed.

Lemma firstn1_skipn {B : Type} (l : list B) (o : nat) (d : B) :
  o < length l -> firstn 1 (skipn o l) = [nth o l d].
Proof.
  revert o. induction l as [|x l IH]; intros o H; cbn [length] in H; [lia|].
  destruct o as [|o]; [reflexivity|]. cbn [skipn nth]. apply IH. lia.
Qed.

Section LayoutFacts.

Context {F : Type} {A : Arith F}.

Lemma getitem_cols_regular (X : ndarray F) (start stop step n : nat) :
  0 < step -> 0 < n -> start + (n - 1) * step < shape_at X 1 ->
  start + (n - 1) * step < stop -> stop <= start + n * step ->
  getitem_cols X start stop step
  = Ok (mk_ndarray [shape_at X 0; n]
          (flat_map (fun r => map (fun j => item2 X r (start + j * step)) (seq 0 n))
                    (seq 0 (shape_at X 0)))).
Proof.
  intros Hs Hn HL Hlo Hhi. unfold getitem_cols.
  destruct (Nat.eqb_spec step 0); [lia|].
  rewrite (slice_indices_regular _ start stop step n) by assumption.
  rewrite length_map, length_seq. do 2 f_equal.
  apply flat_map_ext. intros r. now rewrite map_map.
Qed.

(** X14. The correlated observing systems.  At pass [i] of the notebook's
    loop, when the series holds [1500 * (i + 1)] time steps or more (as it
    does for [i < floor(L / 1500)]), the three slices and their stack raise
    nothing, every system gets exactly 500 samples (shape [(3, npix, 500)],
    the shape of [sim_corr[:, :, :, i]]), and sample [j] of system [k] is
    time step [(3 * j + k) * (i + 1)] of the series: no time step is used
    twice, and consecutive systems are [i + 1] steps apart. *)
Theorem sim_corr_layout (sim_long : ndarray F) (i : nat) :
  1500 * (i + 1) <= shape_at sim_long 1 ->
  exists S,
    sim_corr sim_long i = Ok S
    /\ shape S = [3; shape_at sim_long 0; 500]
    /\ forall k p j, k < 3 -> p < shape_at sim_long 0 -> j < 500 ->
         item3 S k p j = item2 sim_long p ((3 * j + k) * (i + 1)).
Proof.
  intros HL. set (P := shape_at sim_long 0).
  set (d := fun k => flat_map
                       (fun r => map (fun j => item2 sim_long r
                                                 (k * (i + 1) + j * (3 * (i + 1))))
                                     (seq 0 500))
                       (seq 0 P)).
  assert (O : forall start stop k, start = k * (i + 1) -> stop = 1500 * (i + 1) + start ->
              k < 3 ->
              getitem_cols sim_long start stop (3 * (i + 1)) = Ok (mk_ndarray [P; 500] (d k))).
  { intros start stop k -> -> Hk.
    rewrite (getitem_cols_regular sim_long _ _ _ 500) by nia. reflexivity. }
  assert (Ld : forall k, length (d k) = P * 500).
  { intros k. unfold d. now rewrite length_flat_map_rows, length_seq. }
  assert (Nd : forall k p j, p < P -> j < 500 ->
               nth (p * 500 + j) (d k) f0 = item2 sim_long p ((3 * j + k) * (i + 1))).
  { intros k p j Hp Hj. unfold d.
    rewrite (nth_flat_map_seq
               (fun r j => item2 sim_long r (k * (i + 1) + j * (3 * (i + 1))))) by assumption.
    f_equal. lia. }
  exists (mk_ndarray [3; P; 500] (d 0 ++ d 1 ++ d 2)).
  split; [|split; [reflexivity|]].
  - unfold sim_corr, obs1, obs2, obs3.
    rewrite (O 0 (500 * (i + 1) * 3) 0), (O (1 * (i + 1)) _ 1), (O (2 * (i + 1)) _ 2) by lia.
    cbn [bind]. unfold np_stack. cbn [forallb shape ndim length].
    destruct (list_eq_dec Nat.eq_dec [P; 500] [P; 500]) as [_|N]; [|congruence].
    cbn [andb negb Nat.ltb Nat.leb firstn skipn app]. unfold size.
    cbn [fold_right seq flat_map data].
    rewrite !Nat.mul_0_l. cbn [skipn]. rewrite !app_nil_r.
    rewrite !firstn_all2 by (rewrite Ld; lia). reflexivity.
  - intros k p j Hk Hp Hj. unfold item3, shape_at. cbn [shape data nth].
    destruct k as [|[|[|k]]]; [| | |lia].
    + rewrite app_nth1 by (rewrite Ld; nia).
      rewrite <- Nd by assumption. f_equal.
    + rewrite app_nth2 by (rewrite Ld; nia). rewrite Ld.
      rewrite app_nth1 by (rewrite Ld; nia).
      rewrite <- Nd by assumption. f_equal. nia.
    + rewrite app_nth2 by (rewrite Ld; nia). rewrite Ld.
      rewrite app_nth2 by (rewrite Ld; nia). rewrite Ld.
      rewrite <- Nd by assumption. f_equal. nia.
Qed.

(** X15. The independent simulations.  For three [npix x ndata] arrays,
    [np.stack((sim15, sim2, sim3), axis=2).transpose((1, 2, 0))] raises
    nothing and has shape [(ndata, 3, npix)], the layout [ec_covar_multi]
    expects: item [(n, k, p)] is observation [n] of simulation [k] at pixel
    [p]. *)
Theorem sim_layout (sim15 sim2 sim3 : ndarray F) (P T : nat) :
  shape sim15 = [P; T] -> shape sim2 = [P; T] -> shape sim3 = [P; T] ->
  well_formed sim15 -> well_formed sim2 -> well_formed sim3 ->
  exists s,
    sim sim15 sim2 sim3 = Ok s
    /\ shape s = [T; 3; P]
    /\ forall n k p, n < T -> k < 3 -> p < P ->
         item3 s n k p = item2 (nth k [sim15; sim2; sim3] sim15) p n.
Proof.
  intros S1 S2 S3 W1 W2 W3.
  unfold well_formed in W1, W2, W3. rewrite S1 in W1. rewrite S2 in W2. rewrite S3 in W3.
  cbn [fold_right] in W1, W2, W3. rewrite Nat.mul_1_r in W1, W2, W3.
  set (arrays := [sim15; sim2; sim3]).
  set (st := flat_map (fun o => map (fun k => nth o (data (nth k arrays sim15)) f0) (seq 0 3))
                      (seq 0 (P * T))).
  assert (E : np_stack arrays 2 = Ok (mk_ndarray [P; T; 3] st)).
  { unfold np_stack, arrays. cbn [forallb]. rewrite S1, S2, S3.
    destruct (list_eq_dec Nat.eq_dec [P; T] [P; T]) as [_|N]; [|congruence].
    unfold ndim. rewrite S1.
    cbn [andb negb length Nat.ltb Nat.leb firstn skipn app]. unfold size. cbn [fold_right].
    rewrite Nat.mul_1_r. do 2 f_equal. unfold st.
    rewrite !flat_map_concat_map. f_equal. apply map_ext_in. intros o Ho.
    apply in_seq in Ho. cbn [flat_map seq map nth app]. rewrite Nat.mul_1_r.
    rewrite (firstn1_skipn (data sim15) o f0), (firstn1_skipn (data sim2) o f0),
            (firstn1_skipn (data sim3) o f0) by lia.
    reflexivity. }
  set (q := fun n k p => (n * 3 + k) * P + p).
  eexists. split; [|split].
  - unfold sim. fold arrays. rewrite E. cbn [bind]. unfold np_transpose, ndim.
    cbn [shape data length Nat.eqb negb check_axes Nat.leb existsb orb map nth strides].
    reflexivity.
  - reflexivity.
  - intros n k p Hn Hk Hp. unfold item3, shape_at. cbn [shape data nth].
    fold (q n k p).
    assert (Hq : q n k p < size [T; 3; P]) by (unfold size, q; cbn [fold_right]; nia).
    rewrite nth_indep with (d' := (fun q => nth (offset (unravel [T; 3; P] q)
                                                  [size [3]; size []; size [T; 3]]) st f0) 0)
      by (rewrite length_map, length_seq; exact Hq).
    rewrite (map_nth (fun q => nth (offset (unravel [T; 3; P] q)
                                      [size [3]; size []; size [T; 3]]) st f0)).
    rewrite seq_nth by exact Hq. cbn [Nat.add]. unfold q at 1.
    rewrite unravel3 by lia. unfold offset, size. cbn [combine map fold_right fst snd].
    replace (n * (3 * 1) + (k * 1 + (p * (T * (3 * 1)) + 0))) with ((p * T + n) * 3 + k) by lia.
    unfold st.
    rewrite (nth_flat_map_seq (fun o k => nth o (data (nth k arrays sim15)) f0)) by nia.
    unfold item2, shape_at. cbn [Nat.add].
    destruct k as [|[|[|k]]]; [| | |lia]; cbn [nth arrays]; unfold arrays; cbn [nth];
      rewrite ?S1, ?S2, ?S3; reflexivity.
Qed.

End LayoutFacts.

Lemma sim_corr_layout_witness :
  exists S,
    sim_corr sim_long_1500 0 = Ok S
    /\ shape S = [3; shape_at sim_long_1500 0; 500]
    /\ forall k p j, k < 3 -> p < shape_at sim_long_1500 0 -> j < 500 ->
         item3 S k p j = item2 sim_long_1500 p ((3 * j + k) * (0 + 1)).
Proof.
  apply (sim_corr_layout sim_long_1500 0).
  unfold shape_at, sim_long_1500. cbn [shape nth]. lia.
Defined.

Lemma sim_layout_witness :
  exists s,
    sim (zrows sim_a) (zrows sim_b) (zrows sim_c) = Ok s
    /\ shape s = [3; 3; 2]
    /\ forall n k p, n < 3 -> k < 3 -> p < 2 ->
         item3 s n k p
         = item2 (nth k [zrows sim_a; zrows sim_b; zrows sim_c] (zrows sim_a)) p n.
Proof.
  apply (sim_layout (zrows sim_a) (zrows sim_b) (zrows sim_c) 2 3); reflexivity.
Defined.

(** ** The correlation the simulation was drawn with *)

Section ClaytonWeibullFacts.

Local Open Scope R_scope.

Lemma cw_stcs_closed_form (tau theta bt ct : R) :
  theta <> 0 -> cw_stcs tau theta bt ct = exp (- Rpower (tau / bt) ct).
Proof.
  intros Ht. unfold cw_stcs. unfold Rpower at 1. rewrite ln_exp.
  f_equal. field. exact Ht.
Qed.

(** X16. [cw_stcs] in exact real arithmetic (no rounding, no overflow),
    for a positive lag [tau] and scale [bt] and a non-zero [theta]: the
    value is [exp (- (tau / bt) ** ct)]; it does not depend on [theta]; it
    lies strictly between 0 and 1; and for [ct > 0] it decreases strictly as
    the lag grows.  This is not a statement about float64: there [np.exp]
    overflows once [theta * (tau / bt) ** ct] passes about 709.78 and the
    function returns 0.0. *)
Theorem cw_stcs_properties (tau theta bt ct : R) :
  0 < tau -> 0 < bt -> theta <> 0 ->
  cw_stcs tau theta bt ct = exp (- Rpower (tau / bt) ct)
  /\ (forall theta', theta' <> 0 -> cw_stcs tau theta' bt ct = cw_stcs tau theta bt ct)
  /\ 0 < cw_stcs tau theta bt ct < 1
  /\ (forall tau', 0 < ct -> tau < tau' ->
        cw_stcs tau' theta bt ct < cw_stcs tau theta bt ct).
Proof.
  intros Htau Hbt Ht.
  split; [now apply cw_stcs_closed_form|]. split; [|split].
  - intros theta' Ht'. now rewrite !cw_stcs_closed_form.
  - rewrite cw_stcs_closed_form by assumption. split; [apply exp_pos|].
    rewrite <- exp_0. apply exp_increasing.
    assert (0 < Rpower (tau / bt) ct) by (unfold Rpower; apply exp_pos). lra.
  - intros tau' Hct Hlt. rewrite !cw_stcs_closed_form by assumption.
    apply exp_increasing. apply Ropp_lt_contravar.
    apply Rlt_Rpower_l; [exact Hct|]. split.
    + now apply Rdiv_lt_0_compat.
    + unfold Rdiv. apply Rmult_lt_compat_r; [now apply Rinv_0_lt_compat|exact Hlt].
Qed.

End ClaytonWeibullFacts.

(** The call of the notebook at lag 1: [cw_stcs(1, 2, 3, 0.7)]. *)
Lemma cw_stcs_properties_witness :
  (cw_stcs 1 2 3 (7 / 10) = exp (- Rpower (1 / 3) (7 / 10))
   /\ (forall theta', theta' <> 0 -> cw_stcs 1 theta' 3 (7 / 10) = cw_stcs 1 2 3 (7 / 10))
   /\ 0 < cw_stcs 1 2 3 (7 / 10) < 1
   /\ (forall tau', 0 < 7 / 10 -> 1 < tau' ->
         cw_stcs tau' 2 3 (7 / 10) < cw_stcs 1 2 3 (7 / 10)))%R.
Proof.
  apply (cw_stcs_properties 1 2 3 (7 / 10)); lra.
Defined.
